(** * SMARTS [AgentManager]: a shallow embedding of
    [smarts/core/agent_manager.py] and the properties of its agent life cycle,
    per-tick observation and action collection.

    Python sets of ids are [gset string], dicts are [gmap string _]; a loop over
    a set or a dict runs over [elements] / [map_to_list].  Methods that mutate
    [self], raise, log or call a collaborator live in the monad [M]. *)

From stdpp Require Import gmap strings list fin_maps fin_sets.
From Stdlib Require Import ZArith.

Open Scope string_scope.
Open Scope list_scope.

#[local] Set Warnings "-clear-no-such-hyp".

(** ** Collaborators that the module only calls *)

(** [controllers.ActionSpaceType]: the manager only ever compares an action
    space with [MultiTargetPose]; every other member of the enumeration is a
    single-vehicle space. *)
Inductive ActionSpaceType :=
  | MultiTargetPose
  | SingleVehicle.

Global Instance ActionSpaceType_eq_dec : EqDecision ActionSpaceType.
Proof. solve_decision. Defined.

Record AgentInterface := { action_space : ActionSpaceType }.

Record AgentModel := { name : string; initial_speed : Z }.

(** Values that only pass through the manager. *)
Definition SensorState : Type := nat.
Definition Observation : Type := nat.
Definition Payload : Type := nat.

(** What a remote agent hands back: Python's [None], a single action, or the
    per-vehicle dict of a boid agent. *)
Inductive Action :=
  | ANone
  | AScalar (a : Payload)
  | ADict (per_vehicle : gmap string Payload).

(** [action is None] *)
Definition is_None (a : Action) : bool :=
  match a with ANone => true | _ => false end.

(** A handle from [RemoteAgentBuffer]: its identity, what [recv_action(timeout=5)]
    yields this tick ([ANone] on timeout) and whether [terminate()] raises. *)
Record RemoteAgent := {
  handle : nat;
  recv_action : Action;
  terminate_raises : bool
}.

(** [trip_meter_increment] is the reading of [trip_meter_sensor(increment=True)],
    [trip_meter] the one of the plain [trip_meter_sensor()] that follows. *)
Module Vehicle.
Record t := { id : string; trip_meter_increment : Z; trip_meter : Z }.
End Vehicle.

Record VehicleIndex := {
  agent_vehicle_ids : gset string;
  actor_id_from_vehicle_id : string → string;
  (** second argument: [include_shadowers] *)
  vehicle_ids_by_actor_id : string → bool → list string;
  (** rows of the columns [vehicle_id], [shadow_actor_id] *)
  vehicle_indices_by_actor_id : string → list (string * string);
  vehicle_by_id : string → Vehicle.t;
  sensor_state_for_vehicle_id : string → SensorState
}.

Record Sim := {
  vehicle_index : VehicleIndex;
  Sensors_observe : string → SensorState → Vehicle.t → Observation * bool;
  Sensors_observe_batch :
    string → gmap string SensorState → gmap string Vehicle.t →
    gmap string Observation * gmap string bool;
  format_actor_id : string → string → bool → string
}.

(** ** The manager's state *)

Record AgentManager := {
  _initial_interfaces : gmap string AgentInterface;
  _ego_agent_ids : gset string;
  _social_agent_ids : gset string;
  _vehicle_with_sensors : gmap string string;
  _pending_agent_ids : gset string;
  _agent_interfaces : gmap string AgentInterface;
  _agent_data_models : gmap string AgentModel;
  _remote_social_agents : gmap string RemoteAgent
}.

Definition set_ego_agent_ids (v : gset string) (s : AgentManager) :=
  {| _initial_interfaces := _initial_interfaces s;
     _ego_agent_ids := v; _social_agent_ids := _social_agent_ids s;
     _vehicle_with_sensors := _vehicle_with_sensors s;
     _pending_agent_ids := _pending_agent_ids s;
     _agent_interfaces := _agent_interfaces s;
     _agent_data_models := _agent_data_models s;
     _remote_social_agents := _remote_social_agents s |}.

Definition set_social_agent_ids (v : gset string) (s : AgentManager) :=
  {| _initial_interfaces := _initial_interfaces s;
     _ego_agent_ids := _ego_agent_ids s; _social_agent_ids := v;
     _vehicle_with_sensors := _vehicle_with_sensors s;
     _pending_agent_ids := _pending_agent_ids s;
     _agent_interfaces := _agent_interfaces s;
     _agent_data_models := _agent_data_models s;
     _remote_social_agents := _remote_social_agents s |}.

Definition set_vehicle_with_sensors (v : gmap string string) (s : AgentManager) :=
  {| _initial_interfaces := _initial_interfaces s;
     _ego_agent_ids := _ego_agent_ids s; _social_agent_ids := _social_agent_ids s;
     _vehicle_with_sensors := v;
     _pending_agent_ids := _pending_agent_ids s;
     _agent_interfaces := _agent_interfaces s;
     _agent_data_models := _agent_data_models s;
     _remote_social_agents := _remote_social_agents s |}.

Definition set_pending_agent_ids (v : gset string) (s : AgentManager) :=
  {| _initial_interfaces := _initial_interfaces s;
     _ego_agent_ids := _ego_agent_ids s; _social_agent_ids := _social_agent_ids s;
     _vehicle_with_sensors := _vehicle_with_sensors s;
     _pending_agent_ids := v;
     _agent_interfaces := _agent_interfaces s;
     _agent_data_models := _agent_data_models s;
     _remote_social_agents := _remote_social_agents s |}.

Definition set_agent_interfaces (v : gmap string AgentInterface) (s : AgentManager) :=
  {| _initial_interfaces := _initial_interfaces s;
     _ego_agent_ids := _ego_agent_ids s; _social_agent_ids := _social_agent_ids s;
     _vehicle_with_sensors := _vehicle_with_sensors s;
     _pending_agent_ids := _pending_agent_ids s;
     _agent_interfaces := v;
     _agent_data_models := _agent_data_models s;
     _remote_social_agents := _remote_social_agents s |}.

Definition set_agent_data_models (v : gmap string AgentModel) (s : AgentManager) :=
  {| _initial_interfaces := _initial_interfaces s;
     _ego_agent_ids := _ego_agent_ids s; _social_agent_ids := _social_agent_ids s;
     _vehicle_with_sensors := _vehicle_with_sensors s;
     _pending_agent_ids := _pending_agent_ids s;
     _agent_interfaces := _agent_interfaces s;
     _agent_data_models := v;
     _remote_social_agents := _remote_social_agents s |}.

Definition set_remote_social_agents (v : gmap string RemoteAgent) (s : AgentManager) :=
  {| _initial_interfaces := _initial_interfaces s;
     _ego_agent_ids := _ego_agent_ids s; _social_agent_ids := _social_agent_ids s;
     _vehicle_with_sensors := _vehicle_with_sensors s;
     _pending_agent_ids := _pending_agent_ids s;
     _agent_interfaces := _agent_interfaces s;
     _agent_data_models := _agent_data_models s;
     _remote_social_agents := v |}.

(** ** Effects: exceptions, the trace of outside calls, and the monad *)

Inductive Exn :=
  | KeyError (key : string)
  | IndexError
  | AssertionError
  | AttributeError
  | TerminateFailed (h : nat).

Inductive Event :=
  | LogTearingDownAgentManager
  | LogTearingDown (ids : list string)
  | LogNoAction (agents_without_actions : list string)
  | LogRaisedDone (agent_id : string) (obs : Observation)
  | Start (h : nat)
  | Terminate (h : nat)
  | PlanMission
  | AttachSensors (vehicle_id : string) (agent_interface : AgentInterface).

Inductive result (A : Type) :=
  | Ok (a : A)
  | Raise (e : Exn).
Arguments Ok {A} a.
Arguments Raise {A} e.

(** A method call takes [self] to an outcome, the mutated [self] (mutations
    made before a raise stay) and the events it emitted, oldest first. *)
Definition M (A : Type) : Type :=
  AgentManager → result A * AgentManager * list Event.

Definition ret {A} (a : A) : M A := λ s, (Ok a, s, []).

Definition bind {A B} (m : M A) (f : A → M B) : M B := λ s,
  match m s with
  | (Ok a, s', w) => let '(r, s'', w') := f a s' in (r, s'', w ++ w')
  | (Raise e, s', w) => (Raise e, s', w)
  end.

Definition raise {A} (e : Exn) : M A := λ s, (Raise e, s, []).
Definition get : M AgentManager := λ s, (Ok s, s, []).
Definition modify (f : AgentManager → AgentManager) : M unit := λ s, (Ok tt, f s, []).
Definition emit (e : Event) : M unit := λ s, (Ok tt, s, [e]).
Definition assert (b : bool) : M unit := if b then ret tt else raise AssertionError.

(** [d[k]] on a dict: [KeyError] when the key is absent. *)
Definition getitem {V} (d : gmap string V) (k : string) : M V :=
  match d !! k with
  | Some v => ret v
  | None => raise (KeyError k)
  end.

Declare Scope M_scope.
Delimit Scope M_scope with M.
Notation "x <- m ;; k" := (bind m (λ x, k))
  (at level 100, m at next level, right associativity) : M_scope.
Notation "m ;; k" := (bind m (λ _, k))
  (at level 100, right associativity) : M_scope.
Open Scope M_scope.

(** [for x in xs: body(x)] *)
Fixpoint for_ {A} (xs : list A) (body : A → M unit) : M unit :=
  match xs with
  | [] => ret tt
  | x :: xs' => body x ;; for_ xs' body
  end.

(** A loop that threads local variables [acc] through its body. *)
Fixpoint for_acc {A S} (xs : list A) (body : S → A → M S) (acc : S) : M S :=
  match xs with
  | [] => ret acc
  | x :: xs' => acc' <- body acc x ;; for_acc xs' body acc'
  end.

(** ** Properties and small methods *)

Definition agent_ids (self : AgentManager) : gset string :=
  _ego_agent_ids self ∪ _social_agent_ids self.

Definition ego_agent_ids (self : AgentManager) := _ego_agent_ids self.
Definition social_agent_ids (self : AgentManager) := _social_agent_ids self.
Definition agent_interfaces (self : AgentManager) := _agent_interfaces self.
Definition pending_agent_ids (self : AgentManager) := _pending_agent_ids self.

Definition agent_interface_for_agent_id (self : AgentManager) (agent_id : string) :=
  _agent_interfaces self !! agent_id.

Definition active_agents (self : AgentManager) : gset string :=
  agent_ids self ∖ pending_agent_ids self.

Definition is_ego (self : AgentManager) (agent_id : string) : bool :=
  bool_decide (agent_id ∈ ego_agent_ids self).

Definition remove_pending_agent_ids (agent_ids' : gset string) : M unit :=
  self <- get ;;
  assert (bool_decide (agent_ids' ⊆ agent_ids self)) ;;
  modify (set_pending_agent_ids (_pending_agent_ids self ∖ agent_ids')).


(** ** Observation *)

(** An entry of the observation dict: one observation, or the per-vehicle dict
    of a boid agent; likewise for rewards and scores. *)
Inductive ObsEntry :=
  | ObsOne (o : Observation)
  | ObsPerVehicle (m : gmap string Observation).

Inductive MeterEntry :=
  | MeterOne (z : Z)
  | MeterPerKey (m : gmap string Z).

(** The tuple [(observations, rewards, scores, dones)]. *)
Record Observed := {
  observations : gmap string ObsEntry;
  rewards : gmap string MeterEntry;
  scores : gmap string MeterEntry;
  dones : gmap string bool
}.

(** A dict comprehension [{k: v for ...}]: a later item overwrites an earlier
    one with the same key. *)
Definition dict_of {V} (items : list (string * V)) : gmap string V :=
  foldl (λ d kv, <[kv.1 := kv.2]> d) ∅ items.

(** The same comprehension as the list [d.items()] iterates over: the keys in
    the order of their first insertion, each with the value assigned last. *)
Fixpoint dict_set {V} (k : string) (v : V) (items : list (string * V))
    : list (string * V) :=
  match items with
  | [] => [(k, v)]
  | (k', v') :: rest =>
      if decide (k' = k) then (k, v) :: rest else (k', v') :: dict_set k v rest
  end.

Definition dict_items {V} (items : list (string * V)) : list (string * V) :=
  foldl (λ d kv, dict_set kv.1 kv.2 d) [] items.

(** The body of the loop of [observe_from] for one vehicle id. *)
Definition observe_from_step (sim : Sim) (self : AgentManager)
    (acc : Observed) (v_id : string) : M Observed :=
  let vehicle := vehicle_by_id (vehicle_index sim) v_id in
  agent_id <- getitem (_vehicle_with_sensors self) v_id ;;
  let sensor_state :=
    sensor_state_for_vehicle_id (vehicle_index sim) (Vehicle.id vehicle) in
  let od := Sensors_observe sim agent_id sensor_state vehicle in
  ret {| observations := <[agent_id := ObsOne od.1]> (observations acc);
         dones := <[agent_id := od.2]> (dones acc);
         rewards :=
           <[agent_id := MeterOne (Vehicle.trip_meter_increment vehicle)]>
             (rewards acc);
         scores :=
           <[agent_id := MeterOne (Vehicle.trip_meter vehicle)]> (scores acc) |}.

Definition observe_from (sim : Sim) (vehicle_ids : list string) : M Observed :=
  self <- get ;;
  for_acc vehicle_ids (observe_from_step sim self)
    {| observations := ∅; rewards := ∅; scores := ∅; dones := ∅ |}.

Definition _vehicle_reward (vehicle_id : string) (sim : Sim) : Z :=
  Vehicle.trip_meter_increment (vehicle_by_id (vehicle_index sim) vehicle_id).

Definition _vehicle_score (vehicle_id : string) (sim : Sim) : Z :=
  Vehicle.trip_meter (vehicle_by_id (vehicle_index sim) vehicle_id).

(** The dict [dones] starts from: every registered agent whose id is not among
    the index's [agent_vehicle_ids], mapped to "is not pending". *)
Definition initial_dones (sim : Sim) (self : AgentManager) : gmap string bool :=
  set_to_map
    (λ agent_id, (agent_id, bool_decide (agent_id ∉ pending_agent_ids self)))
    (filter (λ agent_id, agent_id ∉ agent_vehicle_ids (vehicle_index sim))
            (agent_ids self)).

(** The body of the loop of [observe] for one active agent. *)
Definition observe_agent (sim : Sim) (self : AgentManager)
    (acc : Observed) (agent_id : string) : M Observed :=
  agent_interface <- getitem (_agent_interfaces self) agent_id ;;
  let indices := vehicle_indices_by_actor_id (vehicle_index sim) agent_id in
  if decide (action_space agent_interface = MultiTargetPose) then
    let vehicles := vehicle_by_id (vehicle_index sim) <$> indices.*1 in
    let sensor_state_items :=
      (λ vehicle,
        (Vehicle.id vehicle,
         sensor_state_for_vehicle_id (vehicle_index sim) (Vehicle.id vehicle)))
      <$> vehicles in
    let sensor_states := dict_of sensor_state_items in
    let od :=
      Sensors_observe_batch sim agent_id sensor_states
        (dict_of ((λ v, (Vehicle.id v, v)) <$> vehicles)) in
    ret {| observations := <[agent_id := ObsPerVehicle od.1]> (observations acc);
           dones :=
             <[agent_id := existsb (λ d, d) (map_to_list od.2).*2]> (dones acc);
           rewards :=
             <[agent_id :=
                 MeterPerKey
                   (dict_of ((λ item, (item.1, _vehicle_reward item.1 sim))
                             <$> dict_items sensor_state_items))]> (rewards acc);
           scores :=
             <[agent_id :=
                 MeterPerKey
                   (dict_of ((λ item, (format_actor_id sim agent_id item.1 true,
                                       _vehicle_score item.1 sim))
                             <$> dict_items sensor_state_items))]> (scores acc) |}
  else
    assert (bool_decide (length indices.*1 = 1)) ;;
    match indices with
    | [] => raise IndexError
    | (vehicle_id, shadow_actor_id) :: _ =>
        let vehicle := vehicle_by_id (vehicle_index sim) vehicle_id in
        let sensor_state :=
          sensor_state_for_vehicle_id (vehicle_index sim) (Vehicle.id vehicle) in
        let od := Sensors_observe sim agent_id sensor_state vehicle in
        done <- (if decide (shadow_actor_id = agent_id) then ret false
                 else emit (LogRaisedDone agent_id od.1) ;; ret od.2) ;;
        ret {| observations := <[agent_id := ObsOne od.1]> (observations acc);
               dones := <[agent_id := done]> (dones acc);
               rewards :=
                 <[agent_id := MeterOne (Vehicle.trip_meter_increment vehicle)]>
                   (rewards acc);
               scores :=
                 <[agent_id := MeterOne (Vehicle.trip_meter vehicle)]> (scores acc) |}
    end.

Definition observe (sim : Sim) : M Observed :=
  self <- get ;;
  for_acc (elements (active_agents self)) (observe_agent sim self)
    {| observations := ∅; rewards := ∅; scores := ∅;
       dones := initial_dones sim self |}.

(** ** Collecting actions *)

(** The agents that control a vehicle, according to the index: the local
    [controlling_agent_ids] of the method below. *)
Definition controlling_agent_ids (sim : Sim) : gset string :=
  let vehicle_ids_controlled_by_agents := agent_vehicle_ids (vehicle_index sim) in
  set_map (actor_id_from_vehicle_id (vehicle_index sim))
          vehicle_ids_controlled_by_agents.

(** The body of the second loop of the method, for one [(agent_id, actions)]
    item: the dict is only written to for a boid agent. *)
Definition filter_boid_actions (sim : Sim) (self : AgentManager)
    (social_agent_actions : gmap string Action) (item : string * Action)
    : M (gmap string Action) :=
  let agent_id := item.1 in
  let actions := item.2 in
  agent_interface <- getitem (_agent_interfaces self) agent_id ;;
  if decide (action_space agent_interface = MultiTargetPose) then
    let controlled_vehicle_ids :=
      vehicle_ids_by_actor_id (vehicle_index sim) agent_id false in
    (* actions.items() *)
    items <- match actions with
             | ADict d => ret d
             | _ => raise AttributeError
             end ;;
    ret (<[agent_id :=
             ADict (filter (λ va : string * Payload, va.1 ∈ controlled_vehicle_ids)
                           items)]> social_agent_actions)
  else ret social_agent_actions.

Definition _filter_social_agent_actions_for_controlled_vehicles
    (sim : Sim) (social_agent_actions : gmap string Action)
    : M (gmap string Action) :=
  self <- get ;;
  let controlling_agent_ids := controlling_agent_ids sim in
  let social_agent_actions : gmap string Action :=
    filter (λ item, item.1 ∈ controlling_agent_ids) social_agent_actions in
  for_acc (map_to_list social_agent_actions) (filter_boid_actions sim self)
    social_agent_actions.

Definition fetch_agent_actions (sim : Sim) (ego_agent_actions : gmap string Action)
    : M (gmap string Action) :=
  self <- get ;;
  let social_agent_actions : gmap string Action :=
    recv_action <$> _remote_social_agents self in
  let agents_without_actions :=
    (filter (λ item : string * Action, is_None item.2)
            (map_to_list social_agent_actions)).*1 in
  (if bool_decide (0 < length agents_without_actions)
   then emit (LogNoAction agents_without_actions) else ret tt) ;;
  social_agent_actions <-
    _filter_social_agent_actions_for_controlled_vehicles sim social_agent_actions ;;
  (* {**ego_agent_actions, **social_agent_actions}: the right operand wins *)
  ret (social_agent_actions ∪ ego_agent_actions).

(** ** Life cycle *)

Definition init_ego_agents : M unit :=
  self <- get ;;
  for_ (map_to_list (_initial_interfaces self)) (λ item,
    modify (λ s, set_pending_agent_ids ({[item.1]} ∪ _pending_agent_ids s) s) ;;
    modify (λ s, set_ego_agent_ids ({[item.1]} ∪ _ego_agent_ids s) s) ;;
    modify (λ s, set_agent_interfaces (<[item.1 := item.2]> (_agent_interfaces s)) s)).

(** [remote_agent] is what [RemoteAgentBuffer.acquire_remote_agent()] hands out. *)
Definition start_social_agent (remote_agent : RemoteAgent) (agent_id : string)
    (interface : AgentInterface) (agent_model : AgentModel) : M unit :=
  emit (Start (handle remote_agent)) ;;
  modify (λ s, set_remote_social_agents
                 (<[agent_id := remote_agent]> (_remote_social_agents s)) s) ;;
  modify (λ s, set_agent_interfaces (<[agent_id := interface]> (_agent_interfaces s)) s) ;;
  modify (λ s, set_social_agent_ids ({[agent_id]} ∪ _social_agent_ids s) s) ;;
  modify (λ s, set_agent_data_models
                 (<[agent_id := agent_model]> (_agent_data_models s)) s).

Definition _teardown_agents_by_ids (agent_ids : gset string)
    (filter_ids : option (gset string)) : M (gset string) :=
  let ids_ := agent_ids in
  let ids_ := match filter_ids with
              | Some filter_ids => ids_ ∩ filter_ids
              | None => ids_
              end in
  (if bool_decide (ids_ ≠ ∅) then emit (LogTearingDown (elements ids_)) else ret tt) ;;
  for_ (elements ids_) (λ agent_id,
    modify (λ s, set_agent_interfaces (delete agent_id (_agent_interfaces s)) s)) ;;
  ret ids_.

Definition teardown_ego_agents (filter_ids : option (gset string)) : M (gset string) :=
  self <- get ;;
  ids_ <- _teardown_agents_by_ids (_ego_agent_ids self) filter_ids ;;
  modify (λ s, set_ego_agent_ids (_ego_agent_ids s ∖ ids_) s) ;;
  ret ids_.

(** [remote_agent.terminate()]: the call is made, then it may raise. *)
Definition terminate (remote_agent : RemoteAgent) : M unit :=
  emit (Terminate (handle remote_agent)) ;;
  if terminate_raises remote_agent
  then raise (TerminateFailed (handle remote_agent))
  else ret tt.

(** [del self._remote_social_agents[id_]] and [del self._agent_data_models[id_]] *)
Definition del_remote_social_agent (id_ : string) : M unit :=
  s <- get ;;
  getitem (_remote_social_agents s) id_ ;;
  modify (set_remote_social_agents (delete id_ (_remote_social_agents s))).

Definition del_agent_data_model (id_ : string) : M unit :=
  s <- get ;;
  getitem (_agent_data_models s) id_ ;;
  modify (set_agent_data_models (delete id_ (_agent_data_models s))).

(** The loop of [teardown_social_agents] over the ids to remove. *)
Definition terminate_and_forget (id_ : string) : M unit :=
  s <- get ;;
  remote_agent <- getitem (_remote_social_agents s) id_ ;;
  terminate remote_agent ;;
  del_remote_social_agent id_ ;;
  del_agent_data_model id_.

Definition teardown_social_agents (filter_ids : option (gset string))
    : M (gset string) :=
  self <- get ;;
  ids_ <- _teardown_agents_by_ids (_social_agent_ids self) filter_ids ;;
  for_ (elements ids_) terminate_and_forget ;;
  modify (λ s, set_social_agent_ids (_social_agent_ids s ∖ ids_) s) ;;
  ret ids_.

Definition teardown : M unit :=
  emit LogTearingDownAgentManager ;;
  teardown_ego_agents None ;;
  teardown_social_agents None ;;
  modify (set_vehicle_with_sensors ∅).

Definition name_for_agent (self : AgentManager) (agent_id : string) : string :=
  match _agent_data_models self !! agent_id with
  | None => ""
  | Some model => name model
  end.

(** ** Sensors on vehicles nobody controls *)

(** The body of the loop of [attach_sensors_to_vehicles] for one vehicle id. *)
Definition attach_sensors_step (sim : Sim) (agent_interface : AgentInterface)
    (sv_id : string) : M unit :=
  self <- get ;;
  if decide (is_Some (_vehicle_with_sensors self !! sv_id)) then ret tt
  else
    emit PlanMission ;;
    let agent_id := "Agent-" +:+ sv_id in
    modify (λ s, set_vehicle_with_sensors
                   (<[sv_id := agent_id]> (_vehicle_with_sensors s)) s) ;;
    modify (λ s, set_agent_interfaces
                   (<[agent_id := agent_interface]> (_agent_interfaces s)) s) ;;
    emit (AttachSensors sv_id agent_interface).

Definition attach_sensors_to_vehicles (sim : Sim) (agent_interface : AgentInterface)
    (vehicle_ids : list string) : M unit :=
  for_ vehicle_ids (attach_sensors_step sim agent_interface).

(** ** Construction and the ego view of a response *)

(** [AgentManager(interfaces)] *)
Definition __init__ (interfaces : gmap string AgentInterface) : AgentManager :=
  {| _initial_interfaces := interfaces;
     _ego_agent_ids := ∅; _social_agent_ids := ∅;
     _vehicle_with_sensors := ∅; _pending_agent_ids := ∅;
     _agent_interfaces := ∅; _agent_data_models := ∅;
     _remote_social_agents := ∅ |}.

(** The dict comprehension of [_filter_for_active_ego], one ego id at a time:
    [dict_[id_]] is only evaluated for an id that is not pending. *)
Definition _filter_for_active_ego_step {V} (self : AgentManager)
    (dict_ : gmap string V) (acc : gmap string V) (id_ : string)
    : M (gmap string V) :=
  if decide (id_ ∉ pending_agent_ids self) then
    v <- getitem dict_ id_ ;;
    ret (<[id_ := v]> acc)
  else ret acc.

Definition _filter_for_active_ego {V} (dict_ : gmap string V) : M (gmap string V) :=
  self <- get ;;
  for_acc (elements (_ego_agent_ids self)) (_filter_for_active_ego_step self dict_) ∅.

(** [tuple(map(self._filter_for_active_ego, response_tuple))] on the tuple
    [(observations, rewards, scores, dones)]. *)
Definition filter_response_for_ego (response_tuple : Observed) : M Observed :=
  o <- _filter_for_active_ego (observations response_tuple) ;;
  r <- _filter_for_active_ego (rewards response_tuple) ;;
  s <- _filter_for_active_ego (scores response_tuple) ;;
  d <- _filter_for_active_ego (dones response_tuple) ;;
  ret {| observations := o; rewards := r; scores := s; dones := d |}.
(** ** Notions used in the statements *)

(** The agent ids bound to the vehicles of a list. *)
Definition sensor_agents (self : AgentManager) (vehicle_ids : list string)
    : gset string :=
  list_to_set (omap (λ v_id, _vehicle_with_sensors self !! v_id) vehicle_ids).

(** What the Sensor Engine computes for a vehicle observed through the agent id
    [agent_id], and the done flag of it. *)
Definition sensed (sim : Sim) (agent_id v_id : string) : Observation * bool :=
  let vehicle := vehicle_by_id (vehicle_index sim) v_id in
  Sensors_observe sim agent_id
    (sensor_state_for_vehicle_id (vehicle_index sim) (Vehicle.id vehicle))
    vehicle.

Definition sensed_done (sim : Sim) (agent_id v_id : string) : bool :=
  (sensed sim agent_id v_id).2.

(** An active agent [observe] can serve: it has an interface, and unless that
    is a boid interface the index lists exactly one vehicle for it. *)
Definition observable_agent (sim : Sim) (self : AgentManager) (a : string) : Prop :=
  ∃ agent_interface, _agent_interfaces self !! a = Some agent_interface ∧
    (action_space agent_interface ≠ MultiTargetPose →
     length (vehicle_indices_by_actor_id (vehicle_index sim) a) = 1).

(** One round of the loop of [observe] for [a] succeeds, sets the done of [a]
    to [d] and emits [wa], whatever was accumulated before. *)
Definition agent_reports (sim : Sim) (self : AgentManager) (a : string)
    (d : bool) (wa : list Event) : Prop :=
  ∀ acc s, ∃ acc',
    observe_agent sim self acc a s = (Ok acc', s, wa) ∧
    dones acc' = <[a := d]> (dones acc).

(** The vehicles [attach_sensors_to_vehicle] was called for, oldest first, and
    how often it was called for one of them. *)
Definition sensors_attached (w : list Event) : list string :=
  omap (λ e, match e with AttachSensors v _ => Some v | _ => None end) w.

Definition attach_count (v : string) (w : list Event) : nat :=
  length (filter (λ u, u = v) (sensors_attached w)).

(** The ids a teardown acts on: the given ids, cut down by the optional filter. *)
Definition removal_set (ids : gset string) (filter_ids : option (gset string))
    : gset string :=
  match filter_ids with
  | Some filter_ids => ids ∩ filter_ids
  | None => ids
  end.

(** The handles [terminate()] was called on, oldest first, and the handles
    registered for a list of agent ids. *)
Definition terminated (w : list Event) : list nat :=
  omap (λ e, match e with Terminate h => Some h | _ => None end) w.

Definition handles_of (remote : gmap string RemoteAgent) (ids : list string)
    : list nat :=
  omap (λ a, handle <$> remote !! a) ids.

(** Every social agent has a remote handle and a data model; the methods that
    add and remove social agents keep it so. *)
Definition social_registered (self : AgentManager) : Prop :=
  _social_agent_ids self ⊆ dom (_remote_social_agents self) ∧
  _social_agent_ids self ⊆ dom (_agent_data_models self).

(** The filter can serve an agent's action: the agent has an interface, and a
    boid agent answered with a per-vehicle dict. *)
Definition servable (self : AgentManager) (a : string) (act : Action) : Prop :=
  ∃ agent_interface, _agent_interfaces self !! a = Some agent_interface ∧
    (action_space agent_interface = MultiTargetPose → ∃ d, act = ADict d).

(** A per-vehicle dict cut down to the vehicles the agent controls. *)
Definition controlled_part (sim : Sim) (a : string) (d : gmap string Payload)
    : gmap string Payload :=
  filter (λ va : string * Payload,
            va.1 ∈ vehicle_ids_by_actor_id (vehicle_index sim) a false) d.

(** What the filter makes of the action of a controlling agent it can serve. *)
Definition kept_action (sim : Sim) (self : AgentManager) (a : string) (act : Action)
    : Action :=
  match _agent_interfaces self !! a, act with
  | Some {| action_space := MultiTargetPose |}, ADict d => ADict (controlled_part sim a d)
  | _, _ => act
  end.

(** The actions received this tick. *)
Definition received (self : AgentManager) : gmap string Action :=
  recv_action <$> _remote_social_agents self.

(** Deleting a list of keys from a dict, one [pop] after the other. *)
Definition drop_all {V} (ids : list string) (d : gmap string V) : gmap string V :=
  foldl (λ d a, delete a d) d ids.

(** ** Scenarios *)

Definition one_ego_not_pending : AgentManager :=
  {| _initial_interfaces := ∅;
     _ego_agent_ids := {["ego-1"]}; _social_agent_ids := ∅;
     _vehicle_with_sensors := ∅; _pending_agent_ids := ∅;
     _agent_interfaces := {["ego-1" := {| action_space := SingleVehicle |}]};
     _agent_data_models := ∅; _remote_social_agents := ∅ |}.


Definition single_vehicle : AgentInterface := {| action_space := SingleVehicle |}.
Definition boid : AgentInterface := {| action_space := MultiTargetPose |}.

(** Two social agents whose handles terminate cleanly. *)
Definition two_social : AgentManager :=
  {| _initial_interfaces := ∅;
     _ego_agent_ids := ∅; _social_agent_ids := {["social-1"; "social-2"]};
     _vehicle_with_sensors := ∅; _pending_agent_ids := ∅;
     _agent_interfaces :=
       {["social-1" := single_vehicle; "social-2" := single_vehicle]};
     _agent_data_models :=
       {["social-1" := {| name := "one"; initial_speed := 0 |};
         "social-2" := {| name := "two"; initial_speed := 0 |}]};
     _remote_social_agents :=
       {["social-1" := {| handle := 1; recv_action := AScalar 1;
                          terminate_raises := false |};
         "social-2" := {| handle := 2; recv_action := AScalar 2;
                          terminate_raises := false |}]} |}.

(** One social agent whose handle raises on [terminate()]. *)
Definition stuck_handle : RemoteAgent :=
  {| handle := 7; recv_action := ANone; terminate_raises := true |}.

Definition stuck_social : AgentManager :=
  {| _initial_interfaces := ∅;
     _ego_agent_ids := ∅; _social_agent_ids := {["social-1"]};
     _vehicle_with_sensors := ∅; _pending_agent_ids := ∅;
     _agent_interfaces := {["social-1" := single_vehicle]};
     _agent_data_models := {["social-1" := {| name := "one"; initial_speed := 0 |}]};
     _remote_social_agents := {["social-1" := stuck_handle]} |}.

(** A town: [ego-1] and [social-1] each control a car, neither is recorded as
    the shadowing agent of it; [watcher] is the recorded shadowing agent of
    [car-9]; the boid agent [boid-1] controls [X] and shadows [Y]; [late] is
    registered, pending and has no vehicle.  Every vehicle is reported done by
    the single-vehicle sensor query.  [social-1] times out this tick. *)
Definition town_index : VehicleIndex :=
  {| agent_vehicle_ids := {["car-1"; "car-2"; "X"]};
     actor_id_from_vehicle_id := λ v,
       if String.eqb v "car-1" then "ego-1"
       else if String.eqb v "car-2" then "social-1"
       else if String.eqb v "X" then "boid-1" else "";
     vehicle_ids_by_actor_id := λ a include_shadowers,
       if String.eqb a "ego-1" then ["car-1"]
       else if String.eqb a "social-1" then ["car-2"]
       else if String.eqb a "boid-1"
            then (if include_shadowers then ["X"; "Y"] else ["X"])
       else if String.eqb a "watcher"
            then (if include_shadowers then ["car-9"] else [])
       else [];
     vehicle_indices_by_actor_id := λ a,
       if String.eqb a "ego-1" then [("car-1", "")]
       else if String.eqb a "social-1" then [("car-2", "")]
       else if String.eqb a "boid-1" then [("X", ""); ("Y", "boid-1")]
       else if String.eqb a "watcher" then [("car-9", "watcher")]
       else [];
     vehicle_by_id := λ v,
       {| Vehicle.id := v; Vehicle.trip_meter_increment := 1;
          Vehicle.trip_meter := 5 |};
     sensor_state_for_vehicle_id := λ _, 0 |}.

Definition town : Sim :=
  {| vehicle_index := town_index;
     Sensors_observe := λ _ _ _, (3, true);
     Sensors_observe_batch := λ _ sensor_states _,
       ((λ _, 3) <$> sensor_states, (λ _, false) <$> sensor_states);
     format_actor_id := λ a v _, a +:+ "-" +:+ v |}.

Definition town_manager : AgentManager :=
  {| _initial_interfaces := {["ego-1" := single_vehicle]};
     _ego_agent_ids := {["ego-1"; "watcher"; "late"]};
     _social_agent_ids := {["social-1"; "boid-1"]};
     _vehicle_with_sensors := {["car-5" := "Agent-car-5"]};
     _pending_agent_ids := {["late"]};
     _agent_interfaces :=
       {["ego-1" := single_vehicle; "watcher" := single_vehicle;
         "late" := single_vehicle; "social-1" := single_vehicle;
         "boid-1" := boid; "Agent-car-5" := single_vehicle]};
     _agent_data_models :=
       {["social-1" := {| name := "one"; initial_speed := 0 |};
         "boid-1" := {| name := "flock"; initial_speed := 0 |}]};
     _remote_social_agents :=
       {["social-1" := {| handle := 1; recv_action := ANone;
                          terminate_raises := false |};
         "boid-1" := {| handle := 2;
                        recv_action := ADict {["X" := 1; "Y" := 2]};
                        terminate_raises := false |}]} |}.

(** The town's manager, with the boid agent timing out as well. *)
Definition town_manager_boid_silent : AgentManager :=
  set_remote_social_agents
    {["boid-1" := {| handle := 2; recv_action := ANone; terminate_raises := false |}]}
    town_manager.


(** The ego agents that are not pending. *)
Definition active_ego (self : AgentManager) : gset string :=
  _ego_agent_ids self ∖ pending_agent_ids self.

(** A dict updated with a list of items, one assignment after the other. *)
Definition assign_all {V} (items : list (string * V)) (d : gmap string V)
    : gmap string V :=
  foldl (λ d item, <[item.1 := item.2]> d) d items.

(** What one round of the loop of [observe] enters for an agent. *)
Record Row := {
  row_observation : ObsEntry;
  row_reward : MeterEntry;
  row_score : MeterEntry;
  row_done : bool
}.

Definition put_row (a : string) (r : Row) (acc : Observed) : Observed :=
  {| observations := <[a := row_observation r]> (observations acc);
     rewards := <[a := row_reward r]> (rewards acc);
     scores := <[a := row_score r]> (scores acc);
     dones := <[a := row_done r]> (dones acc) |}.

(** The sensor states of the vehicles the index lists for a boid agent, and
    what the batched sensor query returns for them. *)
Definition boid_vehicles (sim : Sim) (a : string) : list Vehicle.t :=
  vehicle_by_id (vehicle_index sim)
    <$> (vehicle_indices_by_actor_id (vehicle_index sim) a).*1.

Definition boid_sensor_state_items (sim : Sim) (a : string)
    : list (string * SensorState) :=
  (λ vehicle,
    (Vehicle.id vehicle,
     sensor_state_for_vehicle_id (vehicle_index sim) (Vehicle.id vehicle)))
  <$> boid_vehicles sim a.

Definition boid_sensor_states (sim : Sim) (a : string) : gmap string SensorState :=
  dict_of (boid_sensor_state_items sim a).

Definition boid_sensed (sim : Sim) (a : string)
    : gmap string Observation * gmap string bool :=
  Sensors_observe_batch sim a (boid_sensor_states sim a)
    (dict_of ((λ v, (Vehicle.id v, v)) <$> boid_vehicles sim a)).

Definition boid_row (sim : Sim) (a : string) : Row :=
  {| row_observation := ObsPerVehicle (boid_sensed sim a).1;
     row_done := existsb (λ d, d) (map_to_list (boid_sensed sim a).2).*2;
     row_reward :=
       MeterPerKey
         (dict_of ((λ item, (item.1, _vehicle_reward item.1 sim))
                   <$> dict_items (boid_sensor_state_items sim a)));
     row_score :=
       MeterPerKey
         (dict_of ((λ item, (format_actor_id sim a item.1 true,
                             _vehicle_score item.1 sim))
                   <$> dict_items (boid_sensor_state_items sim a))) |}.

Definition single_row (sim : Sim) (a v sh : string) : Row :=
  {| row_observation := ObsOne (sensed sim a v).1;
     row_done := if decide (sh = a) then false else sensed_done sim a v;
     row_reward :=
       MeterOne (Vehicle.trip_meter_increment (vehicle_by_id (vehicle_index sim) v));
     row_score := MeterOne (Vehicle.trip_meter (vehicle_by_id (vehicle_index sim) v)) |}.

(** The outcome of one round of the loop of [observe] for an agent, and what
    it logs. *)
Definition agent_row (sim : Sim) (self : AgentManager) (a : string)
    : result Row * list Event :=
  match _agent_interfaces self !! a with
  | None => (Raise (KeyError a), [])
  | Some agent_interface =>
      if decide (action_space agent_interface = MultiTargetPose)
      then (Ok (boid_row sim a), [])
      else match vehicle_indices_by_actor_id (vehicle_index sim) a with
           | [(v, sh)] =>
               (Ok (single_row sim a v sh),
                if decide (sh = a) then [] else [LogRaisedDone a (sensed sim a v).1])
           | _ => (Raise AssertionError, [])
           end
  end.

Definition row_of (sim : Sim) (self : AgentManager) (a : string) : option Row :=
  match (agent_row sim self a).1 with
  | Ok r => Some r
  | Raise _ => None
  end.

(** An active single-vehicle ego agent for which the town's index lists no
    vehicle. *)
Definition ghost_manager : AgentManager :=
  {| _initial_interfaces := ∅;
     _ego_agent_ids := {["ghost"]}; _social_agent_ids := ∅;
     _vehicle_with_sensors := ∅; _pending_agent_ids := ∅;
     _agent_interfaces := {["ghost" := single_vehicle]};
     _agent_data_models := ∅; _remote_social_agents := ∅ |}.

(** A social id without a remote handle entry, as left behind when the handle
    dict is replaced while the id set is kept. *)
Definition orphan_social : AgentManager :=
  set_remote_social_agents ∅ stuck_social.
(** * Properties *)

(** ** Running the monad *)

Ltac run :=
  repeat (progress (unfold bind, ret, get, modify, emit, raise, assert, getitem);
          cbn);
  cbn.

Lemma bind_Ok {A B} (m : M A) (f : A → M B) s a s' w :
  m s = (Ok a, s', w) →
  bind m f s = let '(r, s'', w') := f a s' in (r, s'', w ++ w').
Proof. intros H. unfold bind. by rewrite H. Qed.

Lemma bind_Raise {A B} (m : M A) (f : A → M B) s e s' w :
  m s = (Raise e, s', w) → bind m f s = (Raise e, s', w).
Proof. intros H. unfold bind. by rewrite H. Qed.

Lemma getitem_Some {V} (d : gmap string V) k v s :
  d !! k = Some v → getitem d k s = (Ok v, s, []).
Proof. intros H. unfold getitem. by rewrite H. Qed.

Lemma getitem_None {V} (d : gmap string V) k s :
  d !! k = None → getitem d k s = (Raise (KeyError k), s, []).
Proof. intros H. unfold getitem. by rewrite H. Qed.

(** Setting a field to the value it has changes nothing. *)
Lemma set_pending_agent_ids_id s : set_pending_agent_ids (_pending_agent_ids s) s = s.
Proof. by destruct s. Qed.

Lemma set_social_agent_ids_id s : set_social_agent_ids (_social_agent_ids s) s = s.
Proof. by destruct s. Qed.

Lemma set_agent_interfaces_id s : set_agent_interfaces (_agent_interfaces s) s = s.
Proof. by destruct s. Qed.

(** ** Pending agents *)

Lemma remove_pending_agent_ids_run ids self :
  remove_pending_agent_ids ids self =
    if bool_decide (ids ⊆ agent_ids self)
    then (Ok tt, set_pending_agent_ids (_pending_agent_ids self ∖ ids) self, [])
    else (Raise AssertionError, self, []).
Proof. unfold remove_pending_agent_ids. run. by destruct (bool_decide _). Qed.

(** C9 (as amended).  [remove_pending_agent_ids] is rejected exactly when some
    id is not a registered agent id; an id that is registered but not pending
    is accepted.  On success the ids are taken out of the pending set, nothing
    else changes, and a pending set inside the agent ids stays inside them. *)
Theorem remove_pending_agent_ids_guard (ids : gset string) (self : AgentManager) :
  (ids ⊆ agent_ids self →
     ∃ self', remove_pending_agent_ids ids self = (Ok tt, self', []) ∧
       pending_agent_ids self' = pending_agent_ids self ∖ ids ∧
       agent_ids self' = agent_ids self ∧
       (pending_agent_ids self ⊆ agent_ids self →
        pending_agent_ids self' ⊆ agent_ids self'))
  ∧ (ids ⊈ agent_ids self →
     remove_pending_agent_ids ids self = (Raise AssertionError, self, [])).
Proof.
  rewrite remove_pending_agent_ids_run. split; intros Hsub.
  - rewrite bool_decide_eq_true_2 by done.
    eexists; split; [reflexivity|].
    unfold pending_agent_ids, agent_ids; simpl. set_solver.
  - by rewrite bool_decide_eq_false_2.
Qed.

Lemma remove_pending_agent_ids_guard_witness :
  ∃ self', remove_pending_agent_ids {["ego-1"]} one_ego_not_pending = (Ok tt, self', []) ∧
    pending_agent_ids self' = pending_agent_ids one_ego_not_pending ∖ {["ego-1"]}.
Proof.
  destruct (remove_pending_agent_ids_guard {["ego-1"]} one_ego_not_pending) as [H _].
  destruct H as (self' & ? & ? & _); [by vm_compute|]. by exists self'.
Defined.

(** C9 as stated fails: an id that is registered but not pending is not
    rejected. *)
Lemma remove_pending_accepts_not_pending :
  ¬ ((remove_pending_agent_ids {["ego-1"]} one_ego_not_pending).1.1 = Ok tt →
     ({["ego-1"]} : gset string) ⊆ agent_ids one_ego_not_pending ∧
     ({["ego-1"]} : gset string) ⊆ pending_agent_ids one_ego_not_pending).
Proof.
  intros H. destruct H as [_ H]; [by vm_compute|].
  assert (Hin := H "ego-1" ltac:(set_solver)).
  unfold pending_agent_ids, one_ego_not_pending in Hin. simpl in Hin. set_solver.
Qed.

(** ** Observing vehicles that carry sensors *)

Section observe_from.
Variables (sim : Sim) (self : AgentManager).

Lemma observe_from_step_unbound acc v_id s :
  _vehicle_with_sensors self !! v_id = None →
  observe_from_step sim self acc v_id s = (Raise (KeyError v_id), s, []).
Proof. intros H. unfold observe_from_step. run. by rewrite H. Qed.

Lemma observe_from_step_bound acc v_id agent_id s :
  _vehicle_with_sensors self !! v_id = Some agent_id →
  ∃ acc', observe_from_step sim self acc v_id s = (Ok acc', s, []) ∧
    dom (observations acc') = {[agent_id]} ∪ dom (observations acc) ∧
    dom (rewards acc') = {[agent_id]} ∪ dom (rewards acc) ∧
    dom (scores acc') = {[agent_id]} ∪ dom (scores acc) ∧
    dones acc' = <[agent_id := sensed_done sim agent_id v_id]> (dones acc).
Proof.
  intros H. unfold observe_from_step. run. rewrite H. run.
  eexists; split; [reflexivity|]. simpl. by rewrite !dom_insert_L.
Qed.

Lemma observe_from_loop_unbound vehicle_ids acc s :
  (∃ v_id, v_id ∈ vehicle_ids ∧ _vehicle_with_sensors self !! v_id = None) →
  ∃ v_id, v_id ∈ vehicle_ids ∧ _vehicle_with_sensors self !! v_id = None ∧
    for_acc vehicle_ids (observe_from_step sim self) acc s
    = (Raise (KeyError v_id), s, []).
Proof.
  revert acc. induction vehicle_ids as [|v l IH]; intros acc (u & Hin & Hu).
  - by apply elem_of_nil in Hin.
  - simpl. destruct (_vehicle_with_sensors self !! v) as [a|] eqn:Hv.
    + assert (u ∈ l) as Hl.
      { apply elem_of_cons in Hin as [->|]; [congruence|done]. }
      destruct (observe_from_step_bound acc v a s Hv) as (acc' & Hstep & _).
      destruct (IH acc') as (u' & ? & ? & Hrun); [by eauto|].
      exists u'. split_and!; [set_solver|done|].
      by rewrite (bind_Ok _ _ _ _ _ _ Hstep), Hrun.
    + exists v. split_and!; [set_solver|done|].
      by rewrite (bind_Raise _ _ _ _ _ _ (observe_from_step_unbound acc v s Hv)).
Qed.

Lemma observe_from_loop_bound vehicle_ids acc s :
  (∀ v_id, v_id ∈ vehicle_ids → is_Some (_vehicle_with_sensors self !! v_id)) →
  ∃ acc', for_acc vehicle_ids (observe_from_step sim self) acc s = (Ok acc', s, []) ∧
    dom (observations acc') = sensor_agents self vehicle_ids ∪ dom (observations acc) ∧
    dom (rewards acc') = sensor_agents self vehicle_ids ∪ dom (rewards acc) ∧
    dom (scores acc') = sensor_agents self vehicle_ids ∪ dom (scores acc) ∧
    dom (dones acc') = sensor_agents self vehicle_ids ∪ dom (dones acc) ∧
    ∀ agent_id done, dones acc' !! agent_id = Some done →
      dones acc !! agent_id = Some done ∨
      ∃ v_id, v_id ∈ vehicle_ids ∧
        _vehicle_with_sensors self !! v_id = Some agent_id ∧
        done = sensed_done sim agent_id v_id.
Proof.
  revert acc. induction vehicle_ids as [|v l IH]; intros acc Hall.
  - exists acc. unfold sensor_agents. simpl.
    split_and!; [done|set_solver..|by left].
  - destruct (Hall v) as [a Hv]; [set_solver|].
    destruct (observe_from_step_bound acc v a s Hv)
      as (acc1 & Hstep & Ho & Hr & Hs & Hd).
    destruct (IH acc1) as (acc' & Hrun & Ho' & Hr' & Hs' & Hd' & Hval).
    { intros u Hu. apply Hall. set_solver. }
    exists acc'. simpl. rewrite (bind_Ok _ _ _ _ _ _ Hstep), Hrun.
    assert (sensor_agents self (v :: l) = {[a]} ∪ sensor_agents self l) as ->.
    { unfold sensor_agents. simpl. by rewrite Hv. }
    split_and!; [done| | | | |].
    + rewrite Ho', Ho. clear. set_solver.
    + rewrite Hr', Hr. clear. set_solver.
    + rewrite Hs', Hs. clear. set_solver.
    + rewrite Hd', Hd, dom_insert_L. clear. set_solver.
    + intros b d Hb. destruct (Hval b d Hb) as [Hacc1|(u & ? & ? & ?)].
      * rewrite Hd in Hacc1. apply lookup_insert_Some in Hacc1 as [[<- <-]|[_ ?]].
        -- right. exists v. split_and!; [set_solver|done..].
        -- by left.
      * right. exists u. split_and!; [set_solver|done..].
Qed.
End observe_from.

(** C10.  [observe_from] raises [KeyError] when some vehicle id of its input
    has no entry in [_vehicle_with_sensors]; when every id has one it returns
    the four dicts, each keyed by exactly the agent ids bound to the input
    vehicles, the done of an agent being the one the Sensor Engine computed
    for one of its vehicles.  Neither case changes the manager. *)
Theorem observe_from_bound_or_KeyError (sim : Sim) (self : AgentManager)
    (vehicle_ids : list string) :
  ((∃ v_id, v_id ∈ vehicle_ids ∧ _vehicle_with_sensors self !! v_id = None) →
     ∃ v_id, v_id ∈ vehicle_ids ∧ _vehicle_with_sensors self !! v_id = None ∧
       observe_from sim vehicle_ids self = (Raise (KeyError v_id), self, []))
  ∧ ((∀ v_id, v_id ∈ vehicle_ids → is_Some (_vehicle_with_sensors self !! v_id)) →
     ∃ res, observe_from sim vehicle_ids self = (Ok res, self, []) ∧
       dom (observations res) = sensor_agents self vehicle_ids ∧
       dom (rewards res) = sensor_agents self vehicle_ids ∧
       dom (scores res) = sensor_agents self vehicle_ids ∧
       dom (dones res) = sensor_agents self vehicle_ids ∧
       ∀ agent_id done, dones res !! agent_id = Some done →
         ∃ v_id, v_id ∈ vehicle_ids ∧
           _vehicle_with_sensors self !! v_id = Some agent_id ∧
           done = sensed_done sim agent_id v_id).
Proof.
  split; intros H.
  - destruct (observe_from_loop_unbound sim self vehicle_ids
                {| observations := ∅; rewards := ∅; scores := ∅; dones := ∅ |}
                self H) as (v & ? & ? & Hrun).
    exists v. split_and!; [done..|]. unfold observe_from. run. by rewrite Hrun.
  - destruct (observe_from_loop_bound sim self vehicle_ids
                {| observations := ∅; rewards := ∅; scores := ∅; dones := ∅ |}
                self H) as (res & Hrun & Ho & Hr & Hs & Hd & Hval).
    exists res. unfold observe_from. run. rewrite Hrun. simpl in *.
    rewrite dom_empty_L, union_empty_r_L in Ho.
    rewrite dom_empty_L, union_empty_r_L in Hr.
    rewrite dom_empty_L, union_empty_r_L in Hs.
    rewrite dom_empty_L, union_empty_r_L in Hd.
    split_and!; [done..|].
    intros a d Ha. destruct (Hval a d Ha) as [Hemp|?]; [|done].
    by rewrite lookup_empty in Hemp.
Qed.

(** ** Sensors on vehicles nobody controls *)

Section attach.
Variables (sim : Sim) (agent_interface : AgentInterface).

Lemma attach_sensors_step_bound sv_id s :
  is_Some (_vehicle_with_sensors s !! sv_id) →
  attach_sensors_step sim agent_interface sv_id s = (Ok tt, s, []).
Proof. intros H. unfold attach_sensors_step. run. by rewrite decide_True. Qed.

Lemma attach_sensors_step_fresh sv_id s :
  _vehicle_with_sensors s !! sv_id = None →
  attach_sensors_step sim agent_interface sv_id s =
    (Ok tt,
     set_agent_interfaces
       (<["Agent-" +:+ sv_id := agent_interface]> (_agent_interfaces s))
       (set_vehicle_with_sensors
          (<[sv_id := "Agent-" +:+ sv_id]> (_vehicle_with_sensors s)) s),
     [PlanMission; AttachSensors sv_id agent_interface]).
Proof.
  intros H. unfold attach_sensors_step. run.
  rewrite decide_False; [done|]. rewrite H. by intros [? ?].
Qed.

Lemma attach_sensors_all_bound vehicle_ids s :
  (∀ v, v ∈ vehicle_ids → is_Some (_vehicle_with_sensors s !! v)) →
  attach_sensors_to_vehicles sim agent_interface vehicle_ids s = (Ok tt, s, []).
Proof.
  unfold attach_sensors_to_vehicles.
  induction vehicle_ids as [|v l IH]; intros Hall; [done|].
  assert (is_Some (_vehicle_with_sensors s !! v)) as Hv by (apply Hall; by left).
  simpl. rewrite (bind_Ok _ _ _ _ _ _ (attach_sensors_step_bound v s Hv)).
  rewrite IH; [done|]. intros u Hu. apply Hall. by right.
Qed.

Lemma attach_count_cons_attach v u i w :
  attach_count v (PlanMission :: AttachSensors u i :: w) =
    (if decide (u = v) then 1 else 0) + attach_count v w.
Proof.
  unfold attach_count. simpl. rewrite filter_cons. by destruct (decide (u = v)).
Qed.

Lemma attach_sensors_loop vehicle_ids :
  ∀ s, ∃ s' w,
    attach_sensors_to_vehicles sim agent_interface vehicle_ids s = (Ok tt, s', w) ∧
    (∀ v, _vehicle_with_sensors s' !! v =
            match _vehicle_with_sensors s !! v with
            | Some a => Some a
            | None => if decide (v ∈ vehicle_ids) then Some ("Agent-" +:+ v) else None
            end) ∧
    (∀ v, attach_count v w =
            if decide (v ∈ vehicle_ids ∧ _vehicle_with_sensors s !! v = None)
            then 1 else 0) ∧
    (∀ v, v ∈ vehicle_ids → _vehicle_with_sensors s !! v = None →
          _agent_interfaces s' !! ("Agent-" +:+ v) = Some agent_interface) ∧
    (∀ a, _agent_interfaces s !! a = Some agent_interface →
          _agent_interfaces s' !! a = Some agent_interface).
Proof.
  unfold attach_sensors_to_vehicles.
  induction vehicle_ids as [|v l IH]; intros s.
  - exists s, []. split_and!; [done| | |by intros ? ?%elem_of_nil|done].
    + intros v. destruct (_ !! v); [done|]. by rewrite decide_False by apply not_elem_of_nil.
    + intros v. rewrite decide_False; [done|]. intros [?%elem_of_nil _]. done.
  - destruct (_vehicle_with_sensors s !! v) as [a|] eqn:Hv.
    + destruct (IH s) as (s' & w & Hrun & Hvws & Hcnt & Hif & Hkeep).
      exists s', w. simpl.
      rewrite (bind_Ok _ _ _ _ _ _ (attach_sensors_step_bound v s (mk_is_Some _ _ Hv))).
      rewrite Hrun. split_and!; [done| | | |done].
      * intros u. rewrite Hvws. destruct (_vehicle_with_sensors s !! u) eqn:Hu; [done|].
        assert (u ≠ v) by congruence.
        destruct (decide (u ∈ l)).
        -- rewrite decide_True; [done|by right].
        -- rewrite decide_False; [done|]. by intros [?|?]%elem_of_cons.
      * intros u. rewrite Hcnt.
        destruct (decide (u ∈ l ∧ _)) as [[? ?]|Hn].
        -- rewrite decide_True; [done|]. split; [by right|done].
        -- rewrite decide_False; [done|]. intros [[->|?]%elem_of_cons Hu]; [congruence|].
           by apply Hn.
      * intros u [->|Hu]%elem_of_cons Hnone; [congruence|]. by apply Hif.
    + pose proof (attach_sensors_step_fresh v s Hv) as Hstep.
      set (s1 := set_agent_interfaces _ _) in Hstep.
      destruct (IH s1) as (s' & w & Hrun & Hvws & Hcnt & Hif & Hkeep).
      exists s', ([PlanMission; AttachSensors v agent_interface] ++ w). simpl.
      rewrite (bind_Ok _ _ _ _ _ _ Hstep), Hrun.
      assert (∀ u, _vehicle_with_sensors s1 !! u =
                   if decide (v = u) then Some ("Agent-" +:+ v)
                   else _vehicle_with_sensors s !! u) as Hs1.
      { intros u. subst s1. simpl. by rewrite lookup_insert. }
      split_and!; [done| | | |].
      * intros u. rewrite Hvws, Hs1. destruct (decide (v = u)) as [<-|Hne].
        -- rewrite Hv. rewrite decide_True; [done|by left].
        -- destruct (_vehicle_with_sensors s !! u); [done|].
           destruct (decide (u ∈ l)).
           ++ rewrite decide_True; [done|by right].
           ++ rewrite decide_False; [done|]. intros [?|?]%elem_of_cons; congruence.
      * intros u. rewrite attach_count_cons_attach, Hcnt, Hs1.
        destruct (decide (v = u)) as [<-|Hne].
        -- rewrite decide_False by (by intros [_ ?]).
           rewrite decide_True; [done|]. split; [by left|done].
        -- destruct (decide (u ∈ l ∧ _)) as [[? ?]|Hn].
           ++ rewrite decide_True; [done|]. split; [by right|done].
           ++ rewrite decide_False; [done|].
              intros [[?|?]%elem_of_cons Hu]; [congruence|]. by apply Hn.
      * intros u Hu Hnone. destruct (decide (v = u)) as [<-|Hne].
        -- apply Hkeep. subst s1. simpl. by rewrite lookup_insert_eq.
        -- apply Hif.
           ++ apply elem_of_cons in Hu as [?|?]; [congruence|done].
           ++ rewrite Hs1. by rewrite decide_False.
      * intros a Ha. apply Hkeep. subst s1. simpl.
        destruct (decide ("Agent-" +:+ v = a)) as [<-|?].
        -- by rewrite lookup_insert_eq.
        -- by rewrite lookup_insert_ne.
Qed.
End attach.

(** C7.  [attach_sensors_to_vehicles] binds every vehicle id that had no
    binding to the agent id ["Agent-" + vehicle id], installs the interface for
    that agent id and attaches sensors to the vehicle once, however often the
    id occurs in the call; a vehicle id that was bound keeps its binding and
    gets no sensors attached; and any later call for vehicle ids that are
    bound changes no state and emits nothing. *)
Theorem attach_sensors_to_vehicles_idempotent (sim : Sim)
    (agent_interface : AgentInterface) (vehicle_ids : list string)
    (self : AgentManager) :
  ∃ self' w,
    attach_sensors_to_vehicles sim agent_interface vehicle_ids self = (Ok tt, self', w) ∧
    (∀ v, v ∈ vehicle_ids → _vehicle_with_sensors self !! v = None →
       _vehicle_with_sensors self' !! v = Some ("Agent-" +:+ v) ∧
       _agent_interfaces self' !! ("Agent-" +:+ v) = Some agent_interface ∧
       attach_count v w = 1) ∧
    (∀ v, is_Some (_vehicle_with_sensors self !! v) →
       _vehicle_with_sensors self' !! v = _vehicle_with_sensors self !! v ∧
       attach_count v w = 0) ∧
    (∀ v, v ∈ vehicle_ids → is_Some (_vehicle_with_sensors self' !! v)) ∧
    (∀ sim' agent_interface' vehicle_ids',
       (∀ v, v ∈ vehicle_ids' → is_Some (_vehicle_with_sensors self' !! v)) →
       attach_sensors_to_vehicles sim' agent_interface' vehicle_ids' self'
       = (Ok tt, self', [])).
Proof.
  destruct (attach_sensors_loop sim agent_interface vehicle_ids self)
    as (self' & w & Hrun & Hvws & Hcnt & Hif & _).
  exists self', w. split_and!; [done| | | |].
  - intros v Hin Hnone. split_and!.
    + rewrite Hvws, Hnone. by rewrite decide_True.
    + by apply Hif.
    + rewrite Hcnt. by rewrite decide_True.
  - intros v [a Ha]. split.
    + by rewrite Hvws, Ha.
    + rewrite Hcnt. rewrite decide_False; [done|]. intros [_ ?]. congruence.
  - intros v Hin. rewrite Hvws. destruct (_ !! v); [done|]. by rewrite decide_True.
  - intros sim' i' l' Hall. by apply attach_sensors_all_bound.
Qed.

Lemma attach_sensors_to_vehicles_idempotent_witness :
  ∃ self' w,
    attach_sensors_to_vehicles town single_vehicle ["car-7"; "car-7"] town_manager
    = (Ok tt, self', w) ∧
    _vehicle_with_sensors self' !! "car-7" = Some "Agent-car-7" ∧
    attach_count "car-7" w = 1 ∧
    attach_sensors_to_vehicles town boid ["car-7"] self' = (Ok tt, self', []).
Proof.
  destruct (attach_sensors_to_vehicles_idempotent town single_vehicle
              ["car-7"; "car-7"] town_manager)
    as (self' & w & Hrun & Hfresh & _ & Hbound & Hagain).
  destruct (Hfresh "car-7") as (Hv & _ & Hcount); [by left|by vm_compute|].
  exists self', w. split_and!; [done..|].
  apply Hagain. intros v ->%list_elem_of_singleton. apply Hbound. by left.
Defined.

(** ** Tearing agents down *)

Lemma lookup_drop_all {V} ids (d : gmap string V) k :
  drop_all ids d !! k = if decide (k ∈ ids) then None else d !! k.
Proof.
  unfold drop_all. revert d. induction ids as [|a l IH]; intros d; cbn [foldl].
  - by rewrite decide_False by apply not_elem_of_nil.
  - rewrite IH. destruct (decide (k ∈ l)).
    + rewrite decide_True; [done|by right].
    + destruct (decide (k = a)) as [->|Hne].
      * rewrite lookup_delete_eq. rewrite decide_True; [done|by left].
      * rewrite lookup_delete_ne by done.
        rewrite decide_False; [done|]. by intros [?|?]%elem_of_cons.
Qed.

Lemma pop_interfaces_loop ids s :
  for_ ids (λ agent_id,
      modify (λ s, set_agent_interfaces (delete agent_id (_agent_interfaces s)) s)) s
  = (Ok tt, set_agent_interfaces (drop_all ids (_agent_interfaces s)) s, []).
Proof.
  revert s. induction ids as [|a l IH]; intros s; simpl.
  - unfold ret, drop_all. simpl. by rewrite set_agent_interfaces_id.
  - run. by rewrite IH.
Qed.

Lemma _teardown_agents_by_ids_run agent_ids filter_ids s :
  let ids_ := removal_set agent_ids filter_ids in
  _teardown_agents_by_ids agent_ids filter_ids s =
    (Ok ids_,
     set_agent_interfaces (drop_all (elements ids_) (_agent_interfaces s)) s,
     if bool_decide (ids_ ≠ ∅) then [LogTearingDown (elements ids_)] else []).
Proof.
  intros ids_. unfold _teardown_agents_by_ids.
  change (match filter_ids with
          | Some f => agent_ids ∩ f
          | None => agent_ids
          end) with ids_.
  destruct (bool_decide (ids_ ≠ ∅)); run; rewrite pop_interfaces_loop; simpl;
    by rewrite ?app_nil_r.
Qed.

Lemma terminate_and_forget_ok id_ r s :
  _remote_social_agents s !! id_ = Some r →
  terminate_raises r = false →
  is_Some (_agent_data_models s !! id_) →
  terminate_and_forget id_ s =
    (Ok tt,
     set_agent_data_models (delete id_ (_agent_data_models s))
       (set_remote_social_agents (delete id_ (_remote_social_agents s)) s),
     [Terminate (handle r)]).
Proof.
  intros Hr Hok [m Hm].
  unfold terminate_and_forget, terminate, del_remote_social_agent, del_agent_data_model.
  run. rewrite Hr. run. rewrite Hok. run. rewrite Hr. run. by rewrite Hm.
Qed.

Lemma terminate_and_forget_raises id_ r s :
  _remote_social_agents s !! id_ = Some r →
  terminate_raises r = true →
  terminate_and_forget id_ s =
    (Raise (TerminateFailed (handle r)), s, [Terminate (handle r)]).
Proof.
  intros Hr Hbad. unfold terminate_and_forget, terminate.
  run. rewrite Hr. run. by rewrite Hbad.
Qed.

(** One round of the loop leaves the id sets, the interfaces and the entries of
    every other agent alone, whatever its outcome. *)
Lemma terminate_and_forget_frame id_ s res s' w :
  terminate_and_forget id_ s = (res, s', w) →
  _social_agent_ids s' = _social_agent_ids s ∧
  _agent_interfaces s' = _agent_interfaces s ∧
  ∀ a, a ≠ id_ →
    _remote_social_agents s' !! a = _remote_social_agents s !! a ∧
    _agent_data_models s' !! a = _agent_data_models s !! a.
Proof.
  unfold terminate_and_forget, terminate, del_remote_social_agent, del_agent_data_model.
  run. destruct (_remote_social_agents s !! id_) as [r|] eqn:Hr; run.
  2: { intros [= <- <- <-]. done. }
  destruct (terminate_raises r); run.
  { intros [= <- <- <-]. done. }
  rewrite Hr. run.
  destruct (_agent_data_models s !! id_) as [m|] eqn:Hm; run.
  - intros [= <- <- <-]. simpl. split_and!; [done..|].
    intros a Ha. by rewrite !lookup_delete_ne.
  - intros [= <- <- <-]. simpl. split_and!; [done..|].
    intros a Ha. by rewrite !lookup_delete_ne.
Qed.

Lemma handles_of_delete a remote ids :
  a ∉ ids → handles_of (delete a remote) ids = handles_of remote ids.
Proof.
  unfold handles_of. induction ids as [|b l IH]; intros Hnot; [done|].
  apply not_elem_of_cons in Hnot as [Hne Hl]. cbn [omap list_omap].
  rewrite lookup_delete_ne by done. by rewrite IH.
Qed.

Lemma terminated_Terminate hs : terminated (Terminate <$> hs) = hs.
Proof. induction hs as [|h l IH]; [done|]. cbn. unfold terminated in IH. by rewrite IH. Qed.

Lemma terminate_loop_ok ids :
  ∀ s, NoDup ids →
    (∀ a, a ∈ ids →
       ∃ r, _remote_social_agents s !! a = Some r ∧ terminate_raises r = false) →
    (∀ a, a ∈ ids → is_Some (_agent_data_models s !! a)) →
    for_ ids terminate_and_forget s =
      (Ok tt,
       set_agent_data_models (drop_all ids (_agent_data_models s))
         (set_remote_social_agents (drop_all ids (_remote_social_agents s)) s),
       Terminate <$> handles_of (_remote_social_agents s) ids).
Proof.
  induction ids as [|a l IH]; intros s Hnd Hrem Hdat.
  - by destruct s.
  - apply NoDup_cons in Hnd as [Hal Hnd].
    destruct (Hrem a) as (r & Hr & Hok); [by left|].
    pose proof (terminate_and_forget_ok a r s Hr Hok (Hdat a ltac:(by left))) as Hstep.
    cbn [for_]. rewrite (bind_Ok _ _ _ _ _ _ Hstep).
    rewrite IH; [|done|..].
    + cbn -[handles_of drop_all]. rewrite handles_of_delete by done.
      unfold handles_of, drop_all. cbn. by rewrite Hr.
    + intros b Hb. destruct (Hrem b) as (rb & ? & ?); [by right|].
      exists rb. cbn. rewrite lookup_delete_ne; [done|]. by intros ->.
    + intros b Hb. cbn. rewrite lookup_delete_ne; [|by intros ->].
      apply Hdat. by right.
Qed.

Lemma terminate_loop_raises ids a r :
  ∀ s, a ∈ ids →
    _remote_social_agents s !! a = Some r → terminate_raises r = true →
    ∃ e s' w, for_ ids terminate_and_forget s = (Raise e, s', w) ∧
      _social_agent_ids s' = _social_agent_ids s ∧
      _agent_interfaces s' = _agent_interfaces s ∧
      _remote_social_agents s' !! a = Some r ∧
      _agent_data_models s' !! a = _agent_data_models s !! a.
Proof.
  induction ids as [|x l IH]; intros s Hin Hr Hbad; [by apply elem_of_nil in Hin|].
  cbn [for_]. destruct (decide (x = a)) as [->|Hne].
  - rewrite (bind_Raise _ _ _ _ _ _ (terminate_and_forget_raises a r s Hr Hbad)).
    by eexists _, _, _.
  - assert (a ∈ l) as Hl by (apply elem_of_cons in Hin as [?|?]; [congruence|done]).
    destruct (terminate_and_forget x s) as [[res s1] w1] eqn:Hstep.
    destruct (terminate_and_forget_frame x s res s1 w1 Hstep) as (Hsoc & Hif & Hoth).
    destruct (Hoth a) as [Hra Hda]; [done|].
    destruct res as [[]|e].
    + rewrite (bind_Ok _ _ _ _ _ _ Hstep).
      destruct (IH s1 Hl) as (e & s' & w & Hrun & Hsoc' & Hif' & Hr' & Hd');
        [congruence|done|].
      rewrite Hrun. exists e, s', (w1 ++ w). split_and!; [done|congruence..].
    + rewrite (bind_Raise _ _ _ _ _ _ Hstep).
      exists e, s1, w1. split_and!; [done|congruence..].
Qed.

Lemma teardown_social_agents_nothing filter_ids s :
  removal_set (_social_agent_ids s) filter_ids = ∅ →
  teardown_social_agents filter_ids s = (Ok ∅, s, []).
Proof.
  intros Hempty. unfold teardown_social_agents. run.
  rewrite _teardown_agents_by_ids_run. cbv zeta. rewrite Hempty.
  rewrite bool_decide_eq_false_2 by (by intros ?).
  rewrite elements_empty. cbn. rewrite difference_empty_L.
  by destruct s.
Qed.

Lemma teardown_social_agents_run filter_ids s :
  let ids_ := removal_set (_social_agent_ids s) filter_ids in
  social_registered s →
  (∀ a r, a ∈ ids_ → _remote_social_agents s !! a = Some r →
          terminate_raises r = false) →
  teardown_social_agents filter_ids s =
    (Ok ids_,
     set_social_agent_ids (_social_agent_ids s ∖ ids_)
       (set_agent_data_models (drop_all (elements ids_) (_agent_data_models s))
          (set_remote_social_agents
             (drop_all (elements ids_) (_remote_social_agents s))
             (set_agent_interfaces
                (drop_all (elements ids_) (_agent_interfaces s)) s))),
     (if bool_decide (ids_ ≠ ∅) then [LogTearingDown (elements ids_)] else [])
     ++ (Terminate <$> handles_of (_remote_social_agents s) (elements ids_))).
Proof.
  intros ids_ [Hrem Hdat] Hok.
  assert (ids_ ⊆ _social_agent_ids s) as Hsub.
  { subst ids_. unfold removal_set. destruct filter_ids; set_solver. }
  unfold teardown_social_agents. run.
  rewrite _teardown_agents_by_ids_run. cbv zeta. fold ids_. cbn.
  rewrite terminate_loop_ok.
  - cbn. by rewrite !app_nil_r.
  - apply NoDup_elements.
  - intros a Ha%elem_of_elements. cbn.
    assert (a ∈ dom (_remote_social_agents s)) as [r Hr]%elem_of_dom by set_solver.
    exists r. split; [done|]. by apply (Hok a).
  - intros a Ha%elem_of_elements. cbn. apply elem_of_dom. set_solver.
Qed.

Lemma terminated_app w1 w2 : terminated (w1 ++ w2) = terminated w1 ++ terminated w2.
Proof. apply omap_app. Qed.

Lemma handles_of_length remote ids :
  (∀ a, a ∈ ids → is_Some (remote !! a)) →
  length (handles_of remote ids) = length ids.
Proof.
  unfold handles_of. induction ids as [|a l IH]; intros Hall; [done|].
  destruct (Hall a) as [r Hr]; [by left|].
  cbn [omap list_omap]. rewrite Hr. cbn. rewrite IH; [done|].
  intros b Hb. apply Hall. by right.
Qed.

(** Starting a social agent keeps every social agent registered. *)
Lemma start_social_agent_registered remote_agent agent_id interface agent_model s :
  social_registered s →
  ∃ s', start_social_agent remote_agent agent_id interface agent_model s
        = (Ok tt, s', [Start (handle remote_agent)]) ∧
    social_registered s' ∧
    _social_agent_ids s' = {[agent_id]} ∪ _social_agent_ids s ∧
    _remote_social_agents s' !! agent_id = Some remote_agent.
Proof.
  intros [Hrem Hdat]. unfold start_social_agent. run.
  eexists; split; [reflexivity|]. unfold social_registered. cbn.
  rewrite !dom_insert_L, lookup_insert_eq. split_and!; [set_solver..|done|done].
Qed.

(** C8.  While every social agent is registered and the handles of the agents
    to remove terminate without raising, [teardown_social_agents] returns the
    social ids cut down by the filter, takes exactly those out of the social
    id set and out of the three registries, calls [terminate()] once on the
    handle of each removed agent and on nothing else, and leaves every social
    agent registered; asking again, with the same filter or for ids already
    removed, returns the empty set, changes nothing and terminates nothing. *)
Theorem teardown_social_agents_idempotent (filter_ids : option (gset string))
    (self : AgentManager) :
  let ids_ := removal_set (_social_agent_ids self) filter_ids in
  social_registered self →
  (∀ a r, a ∈ ids_ → _remote_social_agents self !! a = Some r →
          terminate_raises r = false) →
  ∃ self' w,
    teardown_social_agents filter_ids self = (Ok ids_, self', w) ∧
    _social_agent_ids self' = _social_agent_ids self ∖ ids_ ∧
    (∀ a, a ∈ ids_ →
       _remote_social_agents self' !! a = None ∧
       _agent_data_models self' !! a = None ∧
       _agent_interfaces self' !! a = None) ∧
    (∀ a, a ∉ ids_ →
       _remote_social_agents self' !! a = _remote_social_agents self !! a ∧
       _agent_data_models self' !! a = _agent_data_models self !! a ∧
       _agent_interfaces self' !! a = _agent_interfaces self !! a) ∧
    terminated w ≡ₚ handles_of (_remote_social_agents self) (elements ids_) ∧
    length (terminated w) = size ids_ ∧
    social_registered self' ∧
    teardown_social_agents filter_ids self' = (Ok ∅, self', []) ∧
    (∀ again, again ⊆ ids_ →
       teardown_social_agents (Some again) self' = (Ok ∅, self', [])).
Proof.
  intros ids_ Hreg Hok.
  assert (ids_ ⊆ _social_agent_ids self) as Hsub.
  { subst ids_. unfold removal_set. destruct filter_ids; set_solver. }
  pose proof (teardown_social_agents_run filter_ids self Hreg Hok) as Hrun.
  fold ids_ in Hrun. eexists _, _. split; [exact Hrun|].
  cbn -[teardown_social_agents].
  assert (∀ V (d : gmap string V) a, a ∈ ids_ → drop_all (elements ids_) d !! a = None)
    as Hin.
  { intros V d a Ha. rewrite lookup_drop_all, decide_True; [done|].
    by apply elem_of_elements. }
  assert (∀ V (d : gmap string V) a, a ∉ ids_ → drop_all (elements ids_) d !! a = d !! a)
    as Hout.
  { intros V d a Ha. rewrite lookup_drop_all, decide_False; [done|].
    by rewrite elem_of_elements. }
  assert (terminated (if bool_decide (ids_ ≠ ∅)
                      then [LogTearingDown (elements ids_)] else []) = []) as Hlog.
  { by destruct (bool_decide _). }
  split_and!.
  - done.
  - intros a Ha. by rewrite !Hin.
  - intros a Ha. by rewrite !Hout.
  - by rewrite terminated_app, Hlog, terminated_Terminate.
  - rewrite terminated_app, Hlog, terminated_Terminate. cbn.
    rewrite handles_of_length; [done|].
    intros a Ha%elem_of_elements. apply elem_of_dom. destruct Hreg. set_solver.
  - destruct Hreg as [Hrem Hdat]. unfold social_registered. cbn.
    split; intros a [Ha Hna]%elem_of_difference; apply elem_of_dom;
      rewrite Hout by done; apply elem_of_dom; set_solver.
  - apply teardown_social_agents_nothing. cbn.
    subst ids_. unfold removal_set. destruct filter_ids; set_solver.
  - intros again Hagain. apply teardown_social_agents_nothing. cbn. set_solver.
Qed.

Lemma teardown_social_agents_idempotent_witness :
  ∃ self' w,
    teardown_social_agents (Some {["social-1"]}) two_social
    = (Ok (removal_set (_social_agent_ids two_social) (Some {["social-1"]})), self', w) ∧
    terminated w ≡ₚ [1] ∧
    teardown_social_agents (Some {["social-1"]}) self' = (Ok ∅, self', []).
Proof.
  destruct (teardown_social_agents_idempotent (Some {["social-1"]}) two_social)
    as (self' & w & Hrun & _ & _ & _ & Hterm & _ & _ & Hagain & _).
  - split; by vm_compute.
  - intros a r _ Hr. unfold two_social in Hr. cbn in Hr.
    apply lookup_insert_Some in Hr as [[_ <-]|[_ Hr]]; [done|].
    by apply lookup_singleton_Some in Hr as [_ <-].
  - exists self', w. split_and!; [done| |done].
    rewrite Hterm. by vm_compute.
Defined.

(** C6 (as amended).  When [terminate()] raises for the handle of an agent
    that is to be removed, [teardown_social_agents] raises; afterwards that
    agent is still in the social id set, still has its remote handle entry and
    still has whatever data model it had; only its interface entry is gone. *)
Theorem teardown_social_agents_terminate_raises (filter_ids : option (gset string))
    (self : AgentManager) (a : string) (r : RemoteAgent) :
  a ∈ removal_set (_social_agent_ids self) filter_ids →
  _remote_social_agents self !! a = Some r →
  terminate_raises r = true →
  ∃ e self' w,
    teardown_social_agents filter_ids self = (Raise e, self', w) ∧
    a ∈ _social_agent_ids self' ∧
    _remote_social_agents self' !! a = Some r ∧
    _agent_data_models self' !! a = _agent_data_models self !! a ∧
    _agent_interfaces self' !! a = None.
Proof.
  intros Hin Hr Hbad.
  assert (a ∈ _social_agent_ids self) as Hsoc.
  { unfold removal_set in Hin. destruct filter_ids; set_solver. }
  set (ids_ := removal_set (_social_agent_ids self) filter_ids) in *.
  set (s1 := set_agent_interfaces
               (drop_all (elements ids_) (_agent_interfaces self)) self).
  destruct (terminate_loop_raises (elements ids_) a r s1)
    as (e & s' & w & Hloop & Hsoc' & Hif' & Hr' & Hd'); [by apply elem_of_elements|done..|].
  exists e, s'. eexists. split.
  - unfold teardown_social_agents. run.
    rewrite _teardown_agents_by_ids_run. cbv zeta. fold ids_. fold s1. cbn.
    rewrite Hloop. reflexivity.
  - split_and!; [by rewrite Hsoc'|done|done|].
    rewrite Hif'. subst s1. cbn. rewrite lookup_drop_all, decide_True; [done|].
    by apply elem_of_elements.
Qed.

Lemma teardown_social_agents_terminate_raises_witness :
  ∃ e self' w,
    teardown_social_agents None stuck_social = (Raise e, self', w) ∧
    "social-1" ∈ _social_agent_ids self' ∧
    _remote_social_agents self' !! "social-1" = Some stuck_handle.
Proof.
  destruct (teardown_social_agents_terminate_raises None stuck_social
              "social-1" stuck_handle)
    as (e & self' & w & Hrun & Hsoc & Hrem & _).
  - vm_compute. reflexivity.
  - vm_compute. reflexivity.
  - reflexivity.
  - exists e, self', w. split; [exact Hrun|]. split; [exact Hsoc|exact Hrem].
Defined.

(** C6 as stated fails: after a [terminate()] that raises, the agent's handle
    entry, data model and membership in the social id set are all still
    there. *)
Lemma teardown_keeps_entries_when_terminate_raises :
  let out := teardown_social_agents None stuck_social in
  out.1.1 = Raise (TerminateFailed 7) ∧
  "social-1" ∈ _social_agent_ids out.1.2 ∧
  _remote_social_agents out.1.2 !! "social-1" = Some stuck_handle ∧
  is_Some (_agent_data_models out.1.2 !! "social-1").
Proof. split_and!; [by vm_compute..|]. eexists. by vm_compute. Qed.

(** In the town: one bound vehicle is observed, one unbound vehicle raises. *)
Lemma observe_from_bound_or_KeyError_witness :
  (∃ v_id, observe_from town ["car-5"; "car-6"] town_manager
           = (Raise (KeyError v_id), town_manager, []))
  ∧ (∃ res, observe_from town ["car-5"] town_manager = (Ok res, town_manager, []) ∧
       dom (dones res) = sensor_agents town_manager ["car-5"]).
Proof.
  split.
  - destruct (observe_from_bound_or_KeyError town town_manager ["car-5"; "car-6"])
      as [H _].
    destruct H as (v & _ & _ & Hrun).
    + exists "car-6". split; [set_solver|by vm_compute].
    + by exists v.
  - destruct (observe_from_bound_or_KeyError town town_manager ["car-5"])
      as [_ H].
    destruct H as (res & Hrun & _ & _ & _ & Hd & _).
    + intros v ->%list_elem_of_singleton. eexists. by vm_compute.
    + by exists res.
Defined.

(** ** Observing the active agents *)

Section observe.
Variables (sim : Sim) (self : AgentManager).

Lemma observe_agent_single a agent_interface v sh :
  _agent_interfaces self !! a = Some agent_interface →
  action_space agent_interface ≠ MultiTargetPose →
  vehicle_indices_by_actor_id (vehicle_index sim) a = [(v, sh)] →
  agent_reports sim self a
    (if decide (sh = a) then false else sensed_done sim a v)
    (if decide (sh = a) then [] else [LogRaisedDone a (sensed sim a v).1]).
Proof.
  intros Hif Hsingle Hidx acc s. unfold observe_agent. run.
  rewrite Hif. run. rewrite decide_False by done. run. rewrite Hidx. run.
  destruct (decide (sh = a)); run; eexists; split; reflexivity.
Qed.

Lemma observe_agent_boid a agent_interface :
  _agent_interfaces self !! a = Some agent_interface →
  action_space agent_interface = MultiTargetPose →
  ∃ d, agent_reports sim self a d [].
Proof.
  intros Hif Hmulti. eexists. intros acc s. unfold observe_agent. run.
  rewrite Hif. run. rewrite decide_True by done. run.
  eexists; split; reflexivity.
Qed.

Lemma observable_agent_reports a :
  observable_agent sim self a → ∃ d wa, agent_reports sim self a d wa.
Proof.
  intros (agent_interface & Hif & Hone).
  destruct (decide (action_space agent_interface = MultiTargetPose)) as [Hm|Hs].
  - destruct (observe_agent_boid a agent_interface Hif Hm) as [d Hd]. by exists d, [].
  - specialize (Hone Hs).
    destruct (vehicle_indices_by_actor_id (vehicle_index sim) a)
      as [|[v sh] [|? ?]] eqn:Hidx; try done.
    eexists _, _. by eapply observe_agent_single.
Qed.

(** Two descriptions of what one round does for [a] agree. *)
Lemma agent_reports_unique a d wa d' wa' :
  agent_reports sim self a d wa → agent_reports sim self a d' wa' →
  d = d' ∧ wa = wa'.
Proof.
  intros H H'.
  destruct (H {| observations := ∅; rewards := ∅; scores := ∅; dones := ∅ |} self)
    as (acc1 & Hrun & Hd).
  destruct (H' {| observations := ∅; rewards := ∅; scores := ∅; dones := ∅ |} self)
    as (acc2 & Hrun' & Hd').
  rewrite Hrun in Hrun'. injection Hrun' as <- <-. split; [|done].
  assert (dones acc1 !! a = Some d) as H1 by (by rewrite Hd, lookup_insert_eq).
  rewrite Hd', lookup_insert_eq in H1. congruence.
Qed.

Lemma observe_loop agents :
  ∀ acc s,
    (∀ a, a ∈ agents → observable_agent sim self a) →
    ∃ acc' w,
      for_acc agents (observe_agent sim self) acc s = (Ok acc', s, w) ∧
      (∀ b, b ∉ agents → dones acc' !! b = dones acc !! b) ∧
      (∀ a, a ∈ agents →
         ∃ d wa, agent_reports sim self a d wa ∧
           dones acc' !! a = Some d ∧ ∀ e, e ∈ wa → e ∈ w).
Proof.
  induction agents as [|x l IH]; intros acc s Hall.
  - exists acc, []. split_and!; [done|done|]. by intros a ?%elem_of_nil.
  - destruct (observable_agent_reports x) as (d & wa & Hrep); [apply Hall; by left|].
    destruct (Hrep acc s) as (acc1 & Hstep & Hd).
    destruct (IH acc1 s) as (acc' & w & Hrun & Hout & Hin).
    { intros a Ha. apply Hall. by right. }
    exists acc', (wa ++ w). cbn [for_acc].
    rewrite (bind_Ok _ _ _ _ _ _ Hstep), Hrun. split_and!; [done| |].
    + intros b [Hne Hb]%not_elem_of_cons. rewrite Hout by done.
      by rewrite Hd, lookup_insert_ne.
    + intros a Ha. destruct (decide (a ∈ l)) as [Hl|Hl].
      * destruct (Hin a Hl) as (d' & wa' & ? & ? & Hsub).
        exists d', wa'. split_and!; [done..|].
        intros e He. apply elem_of_app. right. by apply Hsub.
      * assert (a = x) as -> by (apply elem_of_cons in Ha as [?|?]; done).
        exists d, wa. split_and!; [done| |].
        -- rewrite Hout by done. by rewrite Hd, lookup_insert_eq.
        -- intros e He. apply elem_of_app. by left.
Qed.

Lemma observe_run :
  (∀ a, a ∈ active_agents self → observable_agent sim self a) →
  ∃ res w,
    observe sim self = (Ok res, self, w) ∧
    (∀ b, b ∉ active_agents self → dones res !! b = initial_dones sim self !! b) ∧
    (∀ a, a ∈ active_agents self →
       ∃ d wa, agent_reports sim self a d wa ∧
         dones res !! a = Some d ∧ ∀ e, e ∈ wa → e ∈ w).
Proof.
  intros Hall.
  destruct (observe_loop (elements (active_agents self))
              {| observations := ∅; rewards := ∅; scores := ∅;
                 dones := initial_dones sim self |} self)
    as (res & w & Hrun & Hout & Hin).
  { intros a Ha%elem_of_elements. by apply Hall. }
  exists res, w. split_and!.
  - unfold observe. run. by rewrite Hrun.
  - intros b Hb. apply Hout. by rewrite elem_of_elements.
  - intros a Ha. apply Hin. by apply elem_of_elements.
Qed.

Lemma initial_dones_lookup a :
  a ∈ agent_ids self → a ∉ agent_vehicle_ids (vehicle_index sim) →
  initial_dones sim self !! a = Some (bool_decide (a ∉ pending_agent_ids self)).
Proof.
  intros Hin Hnot. unfold initial_dones. apply lookup_set_to_map.
  - by intros y y' _ _ ?.
  - exists a. split; [|done]. by apply elem_of_filter.
Qed.
End observe.

(** C3 (as amended).  When every active agent can be served, [observe]
    returns, and for an active single-vehicle agent: if the agent is the
    shadowing agent recorded for its vehicle its done is [false]; otherwise
    its done is the one the Sensor Engine computed, unchanged, and the event
    is logged. *)
Theorem observe_done_of_single_vehicle_agent (sim : Sim) (self : AgentManager) :
  (∀ a, a ∈ active_agents self → observable_agent sim self a) →
  ∃ res w,
    observe sim self = (Ok res, self, w) ∧
    ∀ a agent_interface v sh,
      a ∈ active_agents self →
      _agent_interfaces self !! a = Some agent_interface →
      action_space agent_interface ≠ MultiTargetPose →
      vehicle_indices_by_actor_id (vehicle_index sim) a = [(v, sh)] →
      (sh = a → dones res !! a = Some false) ∧
      (sh ≠ a → dones res !! a = Some (sensed_done sim a v) ∧
                LogRaisedDone a (sensed sim a v).1 ∈ w).
Proof.
  intros Hall. destruct (observe_run sim self Hall) as (res & w & Hrun & _ & Hin).
  exists res, w. split; [done|].
  intros a agent_interface v sh Ha Hif Hsingle Hidx.
  destruct (Hin a Ha) as (d & wa & Hrep & Hd & Hsub).
  destruct (agent_reports_unique sim self a _ _ _ _ Hrep
              (observe_agent_single sim self a agent_interface v sh Hif Hsingle Hidx))
    as [-> ->].
  destruct (decide (sh = a)) as [Heq|Hne]; (split; intros Hsh; [|]); try done.
  split; [done|]. apply Hsub. by left.
Qed.

Lemma town_observable a :
  a ∈ active_agents town_manager → observable_agent town town_manager a.
Proof.
  intros Ha.
  assert (a ∈ ({["ego-1"; "watcher"; "social-1"; "boid-1"]} : gset string)) as Hcases.
  { revert Ha. unfold active_agents, agent_ids, pending_agent_ids, town_manager. cbn.
    set_solver. }
  unfold observable_agent.
  repeat (apply elem_of_union in Hcases as [Hcases| ->%elem_of_singleton]);
    [apply elem_of_singleton in Hcases as ->|..];
    eexists; (split; [by vm_compute|]); by vm_compute.
Qed.

Lemma observe_done_of_single_vehicle_agent_witness :
  ∃ res w,
    observe town town_manager = (Ok res, town_manager, w) ∧
    dones res !! "watcher" = Some false ∧
    dones res !! "ego-1" = Some (sensed_done town "ego-1" "car-1").
Proof.
  destruct (observe_done_of_single_vehicle_agent town town_manager town_observable)
    as (res & w & Hrun & Hsingle).
  exists res, w. split_and!; [done| |].
  - apply (Hsingle "watcher" single_vehicle "car-9" "watcher"); by vm_compute.
  - apply (Hsingle "ego-1" single_vehicle "car-1" ""); by vm_compute.
Defined.

(** C3 as stated fails both ways: [ego-1] is not the recorded shadowing agent
    of its vehicle and keeps the computed done [true] instead of [false];
    [watcher] is the recorded shadowing agent of its vehicle, the Sensor Engine
    computes [true] for it, and it gets [false]. *)
Lemma observe_done_forced_for_shadowing_agent_only :
  let res := (observe town town_manager).1.1 in
  vehicle_indices_by_actor_id town_index "ego-1" = [("car-1", "")] ∧
  vehicle_indices_by_actor_id town_index "watcher" = [("car-9", "watcher")] ∧
  sensed_done town "ego-1" "car-1" = true ∧
  sensed_done town "watcher" "car-9" = true ∧
  (∃ r, res = Ok r ∧ dones r !! "ego-1" = Some true ∧
        dones r !! "watcher" = Some false).
Proof. split_and!; [by vm_compute..|]. eexists. split_and!; by vm_compute. Qed.

(** C4 (as amended).  When every active agent can be served, [observe]
    returns, and every registered agent that is pending and whose id is not in
    the index's [agent_vehicle_ids] has the entry [false] in the returned
    dones: it is reported as not done. *)
Theorem observe_pending_agent_not_done (sim : Sim) (self : AgentManager) :
  (∀ a, a ∈ active_agents self → observable_agent sim self a) →
  ∃ res w,
    observe sim self = (Ok res, self, w) ∧
    ∀ a, a ∈ agent_ids self → a ∈ pending_agent_ids self →
         a ∉ agent_vehicle_ids (vehicle_index sim) →
         dones res !! a = Some false.
Proof.
  intros Hall. destruct (observe_run sim self Hall) as (res & w & Hrun & Hout & _).
  exists res, w. split; [done|]. intros a Hreg Hpend Hnoveh.
  rewrite Hout by (unfold active_agents; set_solver).
  rewrite initial_dones_lookup by done.
  by rewrite bool_decide_eq_false_2 by (by intros ?).
Qed.

Lemma observe_pending_agent_not_done_witness :
  ∃ res w,
    observe town town_manager = (Ok res, town_manager, w) ∧
    dones res !! "late" = Some false.
Proof.
  destruct (observe_pending_agent_not_done town town_manager town_observable)
    as (res & w & Hrun & Hpending).
  exists res, w. split; [done|]. apply Hpending; by vm_compute.
Defined.

(** C4 as stated fails: [late] is registered, pending and has no vehicle among
    the index's [agent_vehicle_ids], and its entry in the dones is [false]. *)
Lemma observe_pending_agent_entry_is_false :
  "late" ∈ agent_ids town_manager ∧
  "late" ∈ pending_agent_ids town_manager ∧
  ("late" ∉ agent_vehicle_ids (vehicle_index town)) ∧
  ∃ r, (observe town town_manager).1.1 = Ok r ∧ dones r !! "late" = Some false ∧
       dones r !! "late" ≠ Some true.
Proof.
  split_and!; [by vm_compute..|].
  eexists. split_and!; [by vm_compute|by vm_compute|].
  intros H. by vm_compute in H.
Qed.

(** ** Filtering and merging the actions *)

Section filter.
Variables (sim : Sim) (self : AgentManager).

Lemma filter_boid_actions_run acc a act s :
  servable self a act →
  acc !! a = Some act →
  filter_boid_actions sim self acc (a, act) s
  = (Ok (<[a := kept_action sim self a act]> acc), s, []).
Proof.
  intros (agent_interface & Hif & Hdict) Hacc.
  unfold filter_boid_actions, kept_action. run. rewrite Hif. run.
  destruct agent_interface as [[|]]; cbn in *.
  - destruct Hdict as [d ->]; [done|]. by run.
  - run. by rewrite insert_id.
Qed.

Lemma filter_boid_actions_no_interface acc a act s :
  _agent_interfaces self !! a = None →
  filter_boid_actions sim self acc (a, act) s = (Raise (KeyError a), s, []).
Proof. intros Hif. unfold filter_boid_actions. run. by rewrite Hif. Qed.

Lemma filter_loop items :
  ∀ acc s,
    NoDup items.*1 →
    (∀ a act, (a, act) ∈ items → servable self a act ∧ acc !! a = Some act) →
    ∃ acc',
      for_acc items (filter_boid_actions sim self) acc s = (Ok acc', s, []) ∧
      (∀ k, k ∉ items.*1 → acc' !! k = acc !! k) ∧
      (∀ a act, (a, act) ∈ items → acc' !! a = Some (kept_action sim self a act)).
Proof.
  induction items as [|[x actx] l IH]; intros acc s Hnd Hall.
  - exists acc. split_and!; [done|done|]. by intros ? ? ?%elem_of_nil.
  - cbn in Hnd. apply NoDup_cons in Hnd as [Hx Hnd].
    destruct (Hall x actx) as [Hserv Hacc]; [by left|].
    pose proof (filter_boid_actions_run acc x actx s Hserv Hacc) as Hstep.
    destruct (IH (<[x := kept_action sim self x actx]> acc) s Hnd)
      as (acc' & Hrun & Hout & Hin).
    { intros a act Ha. destruct (Hall a act) as [? ?]; [by right|].
      split; [done|]. rewrite lookup_insert_ne; [done|].
      intros ->. apply Hx. apply list_elem_of_fmap. by exists (a, act). }
    exists acc'. cbn [for_acc]. rewrite (bind_Ok _ _ _ _ _ _ Hstep), Hrun.
    split_and!; [done| |].
    + intros k Hk. cbn in Hk. apply not_elem_of_cons in Hk as [Hne Hk].
      rewrite Hout by done. by rewrite lookup_insert_ne.
    + intros a act [[= -> ->]|Ha]%elem_of_cons.
      * rewrite Hout by done. by rewrite lookup_insert_eq.
      * by apply Hin.
Qed.

Lemma _filter_run (actions : gmap string Action) :
  (∀ a act, actions !! a = Some act → a ∈ controlling_agent_ids sim →
            servable self a act) →
  ∃ filtered,
    _filter_social_agent_actions_for_controlled_vehicles sim actions self
    = (Ok filtered, self, []) ∧
    ∀ a, filtered !! a =
           if decide (a ∈ controlling_agent_ids sim)
           then kept_action sim self a <$> actions !! a
           else None.
Proof.
  intros Hserv.
  set (kept := filter (λ item : string * Action, item.1 ∈ controlling_agent_ids sim)
                      actions).
  destruct (filter_loop (map_to_list kept) kept self) as (filtered & Hrun & Hout & Hin).
  { apply NoDup_fst_map_to_list. }
  { intros a act Ha%elem_of_map_to_list. split; [|done].
    apply map_lookup_filter_Some in Ha as [Ha Hc]. by apply Hserv. }
  exists filtered. split.
  - unfold _filter_social_agent_actions_for_controlled_vehicles. run.
    fold kept. by rewrite Hrun.
  - intros a. destruct (kept !! a) as [act|] eqn:Hk.
    + rewrite (Hin a act) by (by apply elem_of_map_to_list).
      apply map_lookup_filter_Some in Hk as [Ha Hc]. cbn in Hc.
      by rewrite decide_True, Ha.
    + rewrite Hout, Hk.
      * apply map_lookup_filter_None in Hk as [Hnone|Hnot].
        -- rewrite Hnone. by destruct (decide _).
        -- destruct (actions !! a) as [act|] eqn:Ha; [|by destruct (decide _)].
           rewrite decide_False; [done|]. by apply (Hnot act).
      * intros [[a' act] [Heq Hel]]%list_elem_of_fmap. cbn in Heq. subst a'.
        apply elem_of_map_to_list in Hel. congruence.
Qed.

Lemma fetch_agent_actions_run ego_agent_actions filtered :
  _filter_social_agent_actions_for_controlled_vehicles sim (received self) self
  = (Ok filtered, self, []) →
  fetch_agent_actions sim ego_agent_actions self =
    (Ok (filtered ∪ ego_agent_actions), self,
     let agents_without_actions :=
       (filter (λ item : string * Action, is_None item.2)
               (map_to_list (received self))).*1 in
     if bool_decide (0 < length agents_without_actions)
     then [LogNoAction agents_without_actions] else []).
Proof.
  intros Hfilter. unfold fetch_agent_actions.
  unfold received in *. unfold bind, get, emit, ret.
  cbn -[_filter_social_agent_actions_for_controlled_vehicles].
  destruct (bool_decide _);
    cbn -[_filter_social_agent_actions_for_controlled_vehicles];
    rewrite Hfilter; cbn; by rewrite ?app_nil_r.
Qed.
End filter.



Lemma town_servable a act :
  received town_manager !! a = Some act → a ∈ controlling_agent_ids town →
  servable town_manager a act.
Proof.
  intros Ha _. unfold received, town_manager in Ha. cbn in Ha.
  rewrite fmap_insert, map_fmap_singleton in Ha. cbn in Ha.
  apply lookup_insert_Some in Ha as [[<- <-]|[_ Ha]].
  - exists single_vehicle. split; [by vm_compute|]. intros H. by vm_compute in H.
  - apply lookup_singleton_Some in Ha as [<- <-].
    exists boid. split; [by vm_compute|]. intros _. by eexists.
Qed.



Lemma kept_action_ANone sim self a : kept_action sim self a ANone = ANone.
Proof. unfold kept_action. by destruct (_ !! a) as [[[|]]|]. Qed.

(** C1 (as amended).  When the filter can serve every controlling agent,
    [fetch_agent_actions] returns and leaves the manager alone.  A social
    agent whose [recv_action] yields [None] is named in the one debug log
    entry of the call; if it controls no vehicle it contributes no entry to
    the merged dict, and if it controls a vehicle it contributes the entry
    [None].  Every social agent that controls a vehicle gets what the filter
    makes of its own answer, whoever else timed out, and every other id keeps
    the ego entry, if any. *)
Theorem fetch_agent_actions_without_action (sim : Sim) (self : AgentManager)
    (ego_agent_actions : gmap string Action) :
  (∀ a act, received self !! a = Some act → a ∈ controlling_agent_ids sim →
            servable self a act) →
  ∃ merged w,
    fetch_agent_actions sim ego_agent_actions self = (Ok merged, self, w) ∧
    (∀ a r, _remote_social_agents self !! a = Some r → recv_action r = ANone →
       (∃ agents_without_actions,
          w = [LogNoAction agents_without_actions] ∧ a ∈ agents_without_actions) ∧
       (a ∉ controlling_agent_ids sim → merged !! a = ego_agent_actions !! a) ∧
       (a ∈ controlling_agent_ids sim → merged !! a = Some ANone)) ∧
    (∀ b r, _remote_social_agents self !! b = Some r →
       b ∈ controlling_agent_ids sim →
       merged !! b = Some (kept_action sim self b (recv_action r))) ∧
    (∀ b, _remote_social_agents self !! b = None ∨ b ∉ controlling_agent_ids sim →
       merged !! b = ego_agent_actions !! b).
Proof.
  intros Hserv.
  destruct (_filter_run sim self (received self) Hserv) as (filtered & Hfilter & Hlook).
  pose proof (fetch_agent_actions_run sim self ego_agent_actions filtered Hfilter)
    as Hrun.
  eexists _, _. split; [exact Hrun|].
  assert (∀ b r, _remote_social_agents self !! b = Some r →
                 b ∈ controlling_agent_ids sim →
                 (filtered ∪ ego_agent_actions) !! b
                 = Some (kept_action sim self b (recv_action r))) as Hctl.
  { intros b r Hb Hc. apply lookup_union_Some_raw. left.
    rewrite Hlook, decide_True by done. unfold received.
    by rewrite lookup_fmap, Hb. }
  assert (∀ b, _remote_social_agents self !! b = None ∨ b ∉ controlling_agent_ids sim →
               (filtered ∪ ego_agent_actions) !! b = ego_agent_actions !! b) as Hego.
  { intros b Hb. apply lookup_union_r. rewrite Hlook.
    destruct (decide _) as [Hc|]; [|done].
    destruct Hb as [Hb|Hb]; [|done]. unfold received. by rewrite lookup_fmap, Hb. }
  split_and!; [|done|done].
  intros a r Ha Hnone. split_and!.
  - cbv zeta.
    set (l := (filter (λ item : string * Action, is_None item.2)
                      (map_to_list (received self))).*1).
    assert (a ∈ l) as Hal.
    { subst l. apply list_elem_of_fmap. exists (a, ANone). split; [done|].
      apply list_elem_of_filter. split; [done|].
      apply elem_of_map_to_list. unfold received. by rewrite lookup_fmap, Ha, <- Hnone. }
    exists l. split; [|done].
    rewrite bool_decide_eq_true_2; [done|].
    destruct l; [by apply elem_of_nil in Hal|cbn; lia].
  - intros Hc. apply Hego. by right.
  - intros Hc. rewrite (Hctl a r Ha Hc), Hnone. by rewrite kept_action_ANone.
Qed.

Lemma fetch_agent_actions_without_action_witness :
  ∃ merged w,
    fetch_agent_actions town {["ego-1" := AScalar 4]} town_manager
    = (Ok merged, town_manager, w) ∧
    merged !! "social-1" = Some ANone ∧
    merged !! "boid-1" = Some (ADict {["X" := 1]}).
Proof.
  destruct (fetch_agent_actions_without_action town town_manager
              {["ego-1" := AScalar 4]} town_servable)
    as (merged & w & Hrun & Hnone & Hctl & _).
  exists merged, w. split_and!; [done| |].
  - eapply Hnone; by vm_compute.
  - erewrite Hctl; [|by vm_compute..]. by vm_compute.
Defined.

(** C1 as stated fails: [social-1] returns no action within the timeout and
    controls a vehicle, and the merged dict has an entry for it. *)
Lemma fetch_agent_actions_keeps_None_entry :
  (recv_action <$> _remote_social_agents town_manager !! "social-1") = Some ANone ∧
  "social-1" ∈ controlling_agent_ids town ∧
  ∃ merged,
    (fetch_agent_actions town {["ego-1" := AScalar 4]} town_manager).1.1 = Ok merged ∧
    is_Some (merged !! "social-1").
Proof.
  split_and!; [by vm_compute..|].
  eexists. split; [by vm_compute|]. eexists. by vm_compute.
Qed.

(** A boid agent that controls a vehicle and times out is not served: the tick
    raises. *)
Lemma fetch_agent_actions_boid_timeout :
  (fetch_agent_actions town ∅ town_manager_boid_silent).1.1 = Raise AttributeError.
Proof. by vm_compute. Qed.

(** C2 (as amended).  When the filter returns, [fetch_agent_actions] returns
    the filtered social actions laid over the ego actions: an id that occurs
    in both gets the social action, an id only among the ego actions keeps
    the ego action. *)
Theorem fetch_agent_actions_social_entry_wins (sim : Sim) (self : AgentManager)
    (ego_agent_actions filtered : gmap string Action) :
  _filter_social_agent_actions_for_controlled_vehicles sim (received self) self
  = (Ok filtered, self, []) →
  ∃ merged w,
    fetch_agent_actions sim ego_agent_actions self = (Ok merged, self, w) ∧
    (∀ a ego_action social_action,
       ego_agent_actions !! a = Some ego_action →
       filtered !! a = Some social_action →
       merged !! a = Some social_action) ∧
    (∀ a, filtered !! a = None → merged !! a = ego_agent_actions !! a) ∧
    (∀ a social_action, filtered !! a = Some social_action →
       merged !! a = Some social_action).
Proof.
  intros Hfilter.
  pose proof (fetch_agent_actions_run sim self ego_agent_actions filtered Hfilter)
    as Hrun.
  eexists _, _. split; [exact Hrun|]. split_and!.
  - intros a e s _ Hs. apply lookup_union_Some_raw. by left.
  - intros a Ha. by apply lookup_union_r.
  - intros a s Hs. apply lookup_union_Some_raw. by left.
Qed.

Lemma fetch_agent_actions_social_entry_wins_witness :
  ∃ merged w,
    fetch_agent_actions town {["boid-1" := AScalar 9; "ego-1" := AScalar 4]}
      town_manager = (Ok merged, town_manager, w) ∧
    merged !! "boid-1" = Some (ADict {["X" := 1]}) ∧
    merged !! "ego-1" = Some (AScalar 4).
Proof.
  destruct (fetch_agent_actions_social_entry_wins town town_manager
              {["boid-1" := AScalar 9; "ego-1" := AScalar 4]}
              {["boid-1" := ADict {["X" := 1]}; "social-1" := ANone]})
    as (merged & w & Hrun & Hboth & Hego & _); [by vm_compute|].
  exists merged, w. split_and!; [done| |].
  - by apply (Hboth "boid-1" (AScalar 9)).
  - by rewrite Hego.
Defined.

(** C2 as stated fails: [boid-1] occurs among the ego actions and among the
    filtered social actions, and the merged dict gives it the social action,
    not the ego-supplied one. *)
Lemma fetch_agent_actions_ego_entry_overwritten :
  let ego_agent_actions : gmap string Action :=
    {["boid-1" := AScalar 9; "ego-1" := AScalar 4]} in
  ego_agent_actions !! "boid-1" = Some (AScalar 9) ∧
  (∃ filtered,
     (_filter_social_agent_actions_for_controlled_vehicles town
        (received town_manager) town_manager).1.1 = Ok filtered ∧
     is_Some (filtered !! "boid-1")) ∧
  ∃ merged,
    (fetch_agent_actions town ego_agent_actions town_manager).1.1 = Ok merged ∧
    merged !! "boid-1" = Some (ADict {["X" := 1]}) ∧
    merged !! "boid-1" ≠ ego_agent_actions !! "boid-1".
Proof.
  split_and!; [by vm_compute| |].
  - eexists. split; [by vm_compute|]. eexists. by vm_compute.
  - eexists. split_and!; [by vm_compute..|]. intros H. by vm_compute in H.
Qed.

(** * Further properties of the life cycle *)

(** ** Promotion out of the pending set *)

(** Promoting registered ids makes exactly them active in addition: the
    active agents afterwards are the former ones and the promoted ids. *)
Theorem remove_pending_agent_ids_activates (ids : gset string) (self : AgentManager) :
  ids ⊆ agent_ids self →
  ∃ self', remove_pending_agent_ids ids self = (Ok tt, self', []) ∧
    active_agents self' = active_agents self ∪ ids ∧
    _agent_interfaces self' = _agent_interfaces self.
Proof.
  intros Hsub. rewrite remove_pending_agent_ids_run.
  rewrite bool_decide_eq_true_2 by done.
  eexists; split; [reflexivity|]. split; [|done].
  unfold active_agents, pending_agent_ids, agent_ids in *. cbn.
  apply set_eq. intros x. destruct (decide (x ∈ ids)); set_solver.
Qed.

Lemma remove_pending_agent_ids_activates_witness :
  ∃ self', remove_pending_agent_ids {["late"]} town_manager = (Ok tt, self', []) ∧
    active_agents self' = active_agents town_manager ∪ {["late"]}.
Proof.
  destruct (remove_pending_agent_ids_activates {["late"]} town_manager)
    as (self' & Hrun & Hact & _).
  - intros x ->%elem_of_singleton. vm_compute. reflexivity.
  - exists self'. split; [exact Hrun|exact Hact].
Defined.

(** ** Tearing down ego agents, and everything *)

Lemma teardown_ego_agents_run filter_ids s :
  let ids_ := removal_set (_ego_agent_ids s) filter_ids in
  teardown_ego_agents filter_ids s =
    (Ok ids_,
     set_ego_agent_ids (_ego_agent_ids s ∖ ids_)
       (set_agent_interfaces (drop_all (elements ids_) (_agent_interfaces s)) s),
     if bool_decide (ids_ ≠ ∅) then [LogTearingDown (elements ids_)] else []).
Proof.
  intros ids_. unfold teardown_ego_agents. run.
  rewrite _teardown_agents_by_ids_run. cbv zeta. fold ids_. cbn.
  by rewrite app_nil_r.
Qed.

(** [teardown_ego_agents] returns the ego ids cut down by the filter, takes
    them out of the ego id set and drops their interfaces; it calls
    [terminate()] on nothing, leaves the social registries and the pending set
    as they are (a removed ego agent that was pending stays in the pending
    set), and asking again with the same filter removes nothing. *)
Theorem teardown_ego_agents_removes_ego_only (filter_ids : option (gset string))
    (self : AgentManager) :
  let ids_ := removal_set (_ego_agent_ids self) filter_ids in
  ∃ self' w,
    teardown_ego_agents filter_ids self = (Ok ids_, self', w) ∧
    _ego_agent_ids self' = _ego_agent_ids self ∖ ids_ ∧
    (∀ a, _agent_interfaces self' !! a =
            if decide (a ∈ ids_) then None else _agent_interfaces self !! a) ∧
    _pending_agent_ids self' = _pending_agent_ids self ∧
    _social_agent_ids self' = _social_agent_ids self ∧
    _remote_social_agents self' = _remote_social_agents self ∧
    _agent_data_models self' = _agent_data_models self ∧
    _vehicle_with_sensors self' = _vehicle_with_sensors self ∧
    terminated w = [] ∧
    teardown_ego_agents filter_ids self' = (Ok ∅, self', []).
Proof.
  intros ids_. pose proof (teardown_ego_agents_run filter_ids self) as Hrun.
  fold ids_ in Hrun. cbv zeta in Hrun.
  eexists _, _. split; [exact Hrun|]. cbn -[teardown_ego_agents].
  split_and!; try done.
  - intros a. rewrite lookup_drop_all.
    destruct (decide (a ∈ ids_)).
    + rewrite decide_True; [done|]. by apply elem_of_elements.
    + rewrite decide_False; [done|]. by rewrite elem_of_elements.
  - by destruct (bool_decide _).
  - rewrite teardown_ego_agents_run. cbn.
    assert (removal_set (_ego_agent_ids self ∖ ids_) filter_ids = ∅) as ->.
    { subst ids_. unfold removal_set. destruct filter_ids; set_solver. }
    rewrite bool_decide_eq_false_2 by (by intros ?).
    rewrite elements_empty, difference_empty_L. unfold drop_all. cbn.
    by destruct self.
Qed.

(** [teardown], for registered social agents whose handles terminate without
    raising: no ego and no social agent is left, no vehicle carries bystander
    sensors, every registered agent has lost its interface and every social
    agent its handle and data model, and each social handle was terminated
    once.  The pending set is not touched, and an interface installed for an
    id that is no agent id (a bystander's) stays. *)
Theorem teardown_clears_agents (self : AgentManager) :
  social_registered self →
  (∀ a r, a ∈ _social_agent_ids self → _remote_social_agents self !! a = Some r →
          terminate_raises r = false) →
  ∃ self' w,
    teardown self = (Ok tt, self', w) ∧
    _ego_agent_ids self' = ∅ ∧
    _social_agent_ids self' = ∅ ∧
    _vehicle_with_sensors self' = ∅ ∧
    _pending_agent_ids self' = _pending_agent_ids self ∧
    (∀ a, a ∈ agent_ids self → _agent_interfaces self' !! a = None) ∧
    (∀ a, a ∉ agent_ids self →
          _agent_interfaces self' !! a = _agent_interfaces self !! a) ∧
    (∀ a, a ∈ _social_agent_ids self →
          _remote_social_agents self' !! a = None ∧
          _agent_data_models self' !! a = None) ∧
    terminated w ≡ₚ
      handles_of (_remote_social_agents self) (elements (_social_agent_ids self)).
Proof.
  intros Hreg Hok. unfold teardown.
  rewrite (bind_Ok _ _ _ _ _ _ (eq_refl : emit LogTearingDownAgentManager self
                                           = (Ok tt, self, [LogTearingDownAgentManager]))).
  pose proof (teardown_ego_agents_run None self) as Hego. cbv zeta in Hego.
  cbn [removal_set] in Hego.
  set (s1 := set_ego_agent_ids _ _) in Hego.
  pose proof (teardown_social_agents_run None s1) as Hsoc. cbv zeta in Hsoc.
  cbn [removal_set] in Hsoc.
  assert (_social_agent_ids s1 = _social_agent_ids self) as Hs1 by done.
  assert (_remote_social_agents s1 = _remote_social_agents self) as Hr1 by done.
  rewrite Hs1, Hr1 in Hsoc.
  specialize (Hsoc Hreg Hok).
  rewrite (bind_Ok _ _ _ _ _ _ Hego), (bind_Ok _ _ _ _ _ _ Hsoc).
  eexists _, _. split; [reflexivity|]. subst s1. clear Hego Hsoc Hs1 Hr1. cbn.
  assert (∀ X : gset string, X ∖ X = ∅) as Hself by set_solver.
  rewrite !Hself. split_and!; try done.
  - intros a Ha. rewrite !lookup_drop_all.
    destruct (decide (a ∈ elements (_social_agent_ids self))); [done|].
    rewrite decide_True; [done|]. apply elem_of_elements.
    unfold agent_ids in Ha. rewrite elem_of_elements in *. set_solver.
  - intros a Ha. unfold agent_ids in Ha. rewrite !lookup_drop_all.
    rewrite !decide_False; [done|rewrite elem_of_elements..]; set_solver.
  - intros a Ha. rewrite !lookup_drop_all.
    rewrite !decide_True by (by apply elem_of_elements). done.
  - rewrite !terminated_app, terminated_Terminate.
    assert (∀ (X : gset string),
              terminated (if bool_decide (X ≠ ∅)
                          then [LogTearingDown (elements X)] else []) = []) as Hlog.
    { intros X. destruct (bool_decide (X ≠ ∅)); reflexivity. }
    rewrite !Hlog. cbn. by rewrite app_nil_r.
Qed.

Lemma teardown_clears_agents_witness :
  ∃ self' w,
    teardown two_social = (Ok tt, self', w) ∧
    _social_agent_ids self' = ∅ ∧
    terminated w ≡ₚ [1; 2].
Proof.
  destruct (teardown_clears_agents two_social)
    as (self' & w & Hrun & _ & Hsoc & _ & _ & _ & _ & _ & Hterm).
  - split; by vm_compute.
  - intros a r _ Hr. unfold two_social in Hr. cbn in Hr.
    apply lookup_insert_Some in Hr as [[_ <-]|[_ Hr]]; [reflexivity|].
    apply lookup_singleton_Some in Hr as [_ <-]. reflexivity.
  - exists self', w. split; [exact Hrun|]. split; [exact Hsoc|].
    rewrite Hterm. clear. vm_compute. reflexivity.
Defined.

(** ** Registering the initial ego agents *)

Lemma lookup_assign_all {V} (items : list (string * V)) (d : gmap string V) k :
  NoDup items.*1 →
  assign_all items d !! k = (list_to_map items ∪ d) !! k.
Proof.
  unfold assign_all. revert d. induction items as [|[x v] l IH]; intros d Hnd.
  - cbn. by rewrite (left_id_L ∅ (∪)).
  - cbn in Hnd. apply NoDup_cons in Hnd as [Hx Hnd]. cbn [foldl list_to_map foldr].
    rewrite IH by done. cbn. rewrite !lookup_union.
    destruct (decide (k = x)) as [->|Hne].
    + rewrite !lookup_insert_eq. rewrite (not_elem_of_list_to_map_1 _ x) by done.
      by destruct (d !! x).
    + by rewrite !lookup_insert_ne by done.
Qed.

Lemma init_ego_agents_loop items :
  ∀ s, for_ items (λ item : string * AgentInterface,
         modify (λ s, set_pending_agent_ids ({[item.1]} ∪ _pending_agent_ids s) s) ;;
         modify (λ s, set_ego_agent_ids ({[item.1]} ∪ _ego_agent_ids s) s) ;;
         modify (λ s, set_agent_interfaces
                        (<[item.1 := item.2]> (_agent_interfaces s)) s)) s
       = (Ok tt,
          set_agent_interfaces (assign_all items (_agent_interfaces s))
            (set_ego_agent_ids (list_to_set items.*1 ∪ _ego_agent_ids s)
               (set_pending_agent_ids
                  (list_to_set items.*1 ∪ _pending_agent_ids s) s)),
          []).
Proof.
  induction items as [|[x v] l IH]; intros s.
  - cbn. unfold ret, assign_all. cbn. rewrite !(left_id_L ∅ (∪)). by destruct s.
  - cbn [for_]. run. rewrite IH. cbn.
    unfold assign_all. cbn.
    assert (∀ X : gset string,
              list_to_set l.*1 ∪ ({[x]} ∪ X) = {[x]} ∪ list_to_set l.*1 ∪ X) as Hu
      by set_solver.
    by rewrite !Hu.
Qed.

(** [init_ego_agents] makes every id of the initial interfaces an ego agent
    and a pending one and installs its interface, replacing one installed
    before; it never raises, and a pending set inside the agent ids stays
    inside them.  On a fresh manager every initial agent is therefore
    registered and pending, and none is active. *)
Theorem init_ego_agents_registers_pending (self : AgentManager) :
  ∃ self',
    init_ego_agents self = (Ok tt, self', []) ∧
    _ego_agent_ids self' = dom (_initial_interfaces self) ∪ _ego_agent_ids self ∧
    _pending_agent_ids self' =
      dom (_initial_interfaces self) ∪ _pending_agent_ids self ∧
    _agent_interfaces self' = _initial_interfaces self ∪ _agent_interfaces self ∧
    _social_agent_ids self' = _social_agent_ids self ∧
    (pending_agent_ids self ⊆ agent_ids self →
     pending_agent_ids self' ⊆ agent_ids self') ∧
    (_ego_agent_ids self = ∅ → _pending_agent_ids self = ∅ →
     _social_agent_ids self = ∅ → active_agents self' = ∅).
Proof.
  unfold init_ego_agents. run. rewrite init_ego_agents_loop.
  eexists. split; [reflexivity|]. cbn.
  assert (list_to_set (map_to_list (_initial_interfaces self)).*1
          = dom (_initial_interfaces self)) as Hdom.
  { apply set_eq. intros k. rewrite elem_of_list_to_set, elem_of_dom.
    rewrite list_elem_of_fmap. split.
    - intros ([k' v] & -> & Hin). apply elem_of_map_to_list in Hin. by eexists.
    - intros [v Hv]. exists (k, v). split; [done|]. by apply elem_of_map_to_list. }
  rewrite Hdom. split_and!; try done.
  - apply map_eq. intros k.
    rewrite lookup_assign_all by apply NoDup_fst_map_to_list.
    by rewrite list_to_map_to_list.
  - unfold pending_agent_ids, agent_ids. cbn. clear. set_solver.
  - unfold active_agents, pending_agent_ids, agent_ids. cbn.
    intros -> -> ->. clear. set_solver.
Qed.

(** ** The ego view of a response *)

Section ego_filter.
Context {V : Type}.
Variables (self : AgentManager) (dict_ : gmap string V).

Lemma _filter_for_active_ego_loop ids :
  ∀ acc s,
    (∀ a, a ∈ ids → a ∉ pending_agent_ids self → is_Some (dict_ !! a)) →
    ∃ acc',
      for_acc ids (_filter_for_active_ego_step self dict_) acc s = (Ok acc', s, []) ∧
      ∀ k, acc' !! k =
             if decide (k ∈ ids ∧ k ∉ pending_agent_ids self)
             then dict_ !! k else acc !! k.
Proof.
  induction ids as [|x l IH]; intros acc s Hall.
  - exists acc. split; [done|]. intros k.
    rewrite decide_False; [done|]. by intros [?%elem_of_nil _].
  - assert (∃ acc1, _filter_for_active_ego_step self dict_ acc x s = (Ok acc1, s, []) ∧
              ∀ k, acc1 !! k =
                     if decide (k = x ∧ k ∉ pending_agent_ids self)
                     then dict_ !! k else acc !! k) as (acc1 & Hstep & H1).
    { unfold _filter_for_active_ego_step.
      destruct (decide (x ∉ pending_agent_ids self)) as [Hx|Hx].
      - destruct (Hall x) as [v Hv]; [by left|done|].
        run. rewrite Hv. run. eexists. split; [reflexivity|]. intros k.
        destruct (decide (k = x)) as [->|Hne].
        + rewrite lookup_insert_eq. by rewrite decide_True.
        + rewrite lookup_insert_ne by done.
          rewrite decide_False; [done|]. by intros [? _].
      - exists acc. split; [done|]. intros k.
        rewrite decide_False; [done|]. by intros [-> ?]. }
    destruct (IH acc1 s) as (acc' & Hrun & H').
    { intros a Ha. apply Hall. by right. }
    exists acc'. cbn [for_acc]. rewrite (bind_Ok _ _ _ _ _ _ Hstep), Hrun.
    split; [done|]. intros k. rewrite H', H1.
    destruct (decide (k ∈ l ∧ _)) as [[? ?]|Hn1].
    + rewrite decide_True; [done|]. split; [by right|done].
    + destruct (decide (k = x ∧ _)) as [[-> ?]|Hn2].
      * rewrite decide_True; [done|]. split; [by left|done].
      * rewrite decide_False; [done|].
        intros [[->|?]%elem_of_cons ?]; [by apply Hn2|by apply Hn1].
Qed.

Lemma _filter_for_active_ego_loop_missing ids :
  ∀ acc s,
    (∃ a, a ∈ ids ∧ (a ∉ pending_agent_ids self) ∧ dict_ !! a = None) →
    ∃ a, a ∈ ids ∧ (a ∉ pending_agent_ids self) ∧ dict_ !! a = None ∧
      for_acc ids (_filter_for_active_ego_step self dict_) acc s
      = (Raise (KeyError a), s, []).
Proof.
  induction ids as [|x l IH]; intros acc s (a & Hin & Hact & Hnone).
  - by apply elem_of_nil in Hin.
  - cbn [for_acc]. unfold _filter_for_active_ego_step at 1.
    destruct (decide (x ∉ pending_agent_ids self)) as [Hx|Hx].
    + destruct (dict_ !! x) as [v|] eqn:Hv.
      * assert (a ∈ l) as Hl by (apply elem_of_cons in Hin as [->|?]; [congruence|done]).
        destruct (IH (<[x := v]> acc) s) as (b & ? & ? & ? & Hrun); [by eauto|].
        exists b. split_and!; [by right|done..|].
        run. rewrite Hv. run. by rewrite Hrun.
      * exists x. split_and!; [by left|done..|]. run. by rewrite Hv.
    + assert (a ∈ l) as Hl by (apply elem_of_cons in Hin as [->|?]; [done|done]).
      destruct (IH acc s) as (b & ? & ? & ? & Hrun); [by eauto|].
      exists b. split_and!; [by right|done..|]. run. by rewrite Hrun.
Qed.
End ego_filter.

(** [_filter_for_active_ego] keeps of a dict exactly the entries of the ego
    agents that are not pending, provided each of them has one; if one of them
    has none, it raises [KeyError] for such an id.  Entries of social agents
    and of pending ego agents never come through, and the manager is left
    alone. *)
Theorem _filter_for_active_ego_keeps_active_ego {V} (dict_ : gmap string V)
    (self : AgentManager) :
  ((∀ a, a ∈ active_ego self → is_Some (dict_ !! a)) →
     ∃ kept, _filter_for_active_ego dict_ self = (Ok kept, self, []) ∧
       dom kept = active_ego self ∧
       ∀ k, kept !! k = if decide (k ∈ active_ego self) then dict_ !! k else None)
  ∧ ((∃ a, a ∈ active_ego self ∧ dict_ !! a = None) →
     ∃ a, a ∈ active_ego self ∧ dict_ !! a = None ∧
       _filter_for_active_ego dict_ self = (Raise (KeyError a), self, [])).
Proof.
  assert (∀ k, k ∈ active_ego self ↔
               k ∈ elements (_ego_agent_ids self) ∧ k ∉ pending_agent_ids self) as Hact.
  { intros k. unfold active_ego. rewrite elem_of_difference, elem_of_elements. done. }
  split.
  - intros Hall.
    destruct (_filter_for_active_ego_loop self dict_ (elements (_ego_agent_ids self))
                ∅ self) as (kept & Hrun & Hlook).
    { intros a Ha Hp. apply Hall. by apply Hact. }
    assert (∀ k, kept !! k = if decide (k ∈ active_ego self) then dict_ !! k else None)
      as Hkept.
    { intros k. rewrite Hlook, lookup_empty.
      destruct (decide (k ∈ active_ego self)) as [Hk|Hk].
      - rewrite decide_True; [done|]. by apply Hact.
      - rewrite decide_False; [done|]. by rewrite <- Hact. }
    exists kept. split_and!; [|  |done].
    + unfold _filter_for_active_ego. run. by rewrite Hrun.
    + apply set_eq. intros k. rewrite elem_of_dom, Hkept.
      destruct (decide (k ∈ active_ego self)) as [Hk|Hk].
      * split; [done|]. intros _. by apply Hall.
      * split; [by intros [? ?]|done].
  - intros (a & Ha & Hnone).
    destruct (_filter_for_active_ego_loop_missing self dict_
                (elements (_ego_agent_ids self)) ∅ self)
      as (b & Hb & Hbp & Hbn & Hrun).
    { exists a. apply Hact in Ha as [? ?]. done. }
    exists b. split_and!; [by apply Hact|done|].
    unfold _filter_for_active_ego. run. by rewrite Hrun.
Qed.

Lemma _filter_for_active_ego_keeps_active_ego_witness :
  (∃ kept, _filter_for_active_ego ({["ego-1" := 1; "watcher" := 2; "late" := 3;
                                      "social-1" := 4]} : gmap string nat)
                                   town_manager = (Ok kept, town_manager, []) ∧
     dom kept = active_ego town_manager)
  ∧ (∃ a, _filter_for_active_ego ({["ego-1" := 1]} : gmap string nat) town_manager
          = (Raise (KeyError a), town_manager, [])).
Proof.
  split.
  - destruct (_filter_for_active_ego_keeps_active_ego
                ({["ego-1" := 1; "watcher" := 2; "late" := 3; "social-1" := 4]}
                  : gmap string nat) town_manager) as [H _].
    destruct H as (kept & Hrun & Hdom & _).
    + intros a Ha.
      assert (a ∈ ({["ego-1"; "watcher"]} : gset string)) as Hcases.
      { revert Ha. unfold active_ego, pending_agent_ids, town_manager. cbn.
        clear. set_solver. }
      clear Ha. apply elem_of_union in Hcases as [->%elem_of_singleton| ->%elem_of_singleton];
        eexists; vm_compute; reflexivity.
    + exists kept. split; [exact Hrun|exact Hdom].
  - destruct (_filter_for_active_ego_keeps_active_ego
                ({["ego-1" := 1]} : gmap string nat) town_manager) as [_ H].
    destruct H as (a & _ & _ & Hrun).
    + exists "watcher". split; vm_compute; reflexivity.
    + exists a. exact Hrun.
Defined.

(** ** What [observe] returns *)

Section rows.
Variables (sim : Sim) (self : AgentManager).

Lemma observe_agent_row acc a s :
  observe_agent sim self acc a s =
    match agent_row sim self a with
    | (Ok r, w) => (Ok (put_row a r acc), s, w)
    | (Raise e, w) => (Raise e, s, w)
    end.
Proof.
  unfold observe_agent, agent_row. run.
  destruct (_agent_interfaces self !! a) as [agent_interface|]; run; [|done].
  destruct (decide (action_space agent_interface = MultiTargetPose)); run; [done|].
  destruct (vehicle_indices_by_actor_id (vehicle_index sim) a)
    as [|[v sh] [|? ?]]; run; try done.
  unfold single_row, put_row, sensed_done, sensed.
  destruct (decide (sh = a)); run; done.
Qed.

Lemma row_of_Some a r :
  row_of sim self a = Some r ↔ ∃ w, agent_row sim self a = (Ok r, w).
Proof.
  unfold row_of. destruct (agent_row sim self a) as [[r'|e] w]; cbn.
  - split; [intros [= ->]; by eexists|intros [w' [= -> _]]; done].
  - split; [done|intros [w' [=]]].
Qed.

Lemma observable_agent_row a :
  observable_agent sim self a ↔ is_Some (row_of sim self a).
Proof.
  unfold observable_agent, row_of, agent_row. split.
  - intros (agent_interface & -> & Hone).
    destruct (decide _); cbn; [done|].
    destruct (vehicle_indices_by_actor_id _ a) as [|[v sh] [|? ?]];
      cbn in *; try done; by specialize (Hone ltac:(done)).
  - destruct (_agent_interfaces self !! a) as [agent_interface|]; cbn; [|by intros [? ?]].
    intros Hsome. exists agent_interface. split; [done|]. intros Hs.
    rewrite decide_False in Hsome by done.
    destruct (vehicle_indices_by_actor_id _ a) as [|[v sh] [|? ?]];
      cbn in *; try done; by destruct Hsome.
Qed.

Lemma observe_rows_ok agents :
  ∀ acc s,
    (∀ a, a ∈ agents → is_Some (row_of sim self a)) →
    ∃ acc' w,
      for_acc agents (observe_agent sim self) acc s = (Ok acc', s, w) ∧
      (∀ k, observations acc' !! k =
              if decide (k ∈ agents) then row_observation <$> row_of sim self k
              else observations acc !! k) ∧
      (∀ k, rewards acc' !! k =
              if decide (k ∈ agents) then row_reward <$> row_of sim self k
              else rewards acc !! k) ∧
      (∀ k, scores acc' !! k =
              if decide (k ∈ agents) then row_score <$> row_of sim self k
              else scores acc !! k) ∧
      (∀ k, dones acc' !! k =
              if decide (k ∈ agents) then row_done <$> row_of sim self k
              else dones acc !! k).
Proof.
  induction agents as [|x l IH]; intros acc s Hall.
  - exists acc, []. split_and!; [done|..]; intros k;
      by rewrite decide_False by apply not_elem_of_nil.
  - destruct (Hall x) as [r Hr]; [by left|].
    pose proof Hr as Hrow. apply row_of_Some in Hrow as [wx Hrow].
    pose proof (observe_agent_row acc x s) as Hstep. rewrite Hrow in Hstep.
    destruct (IH (put_row x r acc) s) as (acc' & w & Hrun & Ho & Hrw & Hsc & Hd).
    { intros a Ha. apply Hall. by right. }
    exists acc', (wx ++ w). cbn [for_acc].
    rewrite (bind_Ok _ _ _ _ _ _ Hstep), Hrun.
    assert (∀ {V} (f : Row → V) (field : Observed → gmap string V) k,
              field (put_row x r acc) !! k
              = (if decide (k = x) then Some (f r) else field acc !! k) →
              (if decide (k ∈ l) then f <$> row_of sim self k
               else field (put_row x r acc) !! k)
              = (if decide (k ∈ x :: l) then f <$> row_of sim self k
                 else field acc !! k)) as Hcase.
    { intros V f field k Hput. destruct (decide (k ∈ l)) as [Hl|Hl].
      - rewrite decide_True; [done|by right].
      - rewrite Hput. destruct (decide (k = x)) as [->|Hne].
        + rewrite decide_True by (by left). by rewrite Hr.
        + rewrite decide_False; [done|]. by intros [?|?]%elem_of_cons. }
    split_and!; [done|..]; intros k.
    + rewrite Ho. apply Hcase. cbn. by rewrite lookup_insert; destruct (decide _);
        destruct (decide _); try congruence.
    + rewrite Hrw. apply Hcase. cbn. by rewrite lookup_insert; destruct (decide _);
        destruct (decide _); try congruence.
    + rewrite Hsc. apply Hcase. cbn. by rewrite lookup_insert; destruct (decide _);
        destruct (decide _); try congruence.
    + rewrite Hd. apply Hcase. cbn. by rewrite lookup_insert; destruct (decide _);
        destruct (decide _); try congruence.
Qed.

Lemma observe_rows_raise agents :
  ∀ acc s,
    (∃ a, a ∈ agents ∧ row_of sim self a = None) →
    ∃ a e w,
      a ∈ agents ∧ (agent_row sim self a).1 = Raise e ∧
      for_acc agents (observe_agent sim self) acc s = (Raise e, s, w).
Proof.
  induction agents as [|x l IH]; intros acc s (a & Hin & Hnone).
  - by apply elem_of_nil in Hin.
  - cbn [for_acc]. pose proof (observe_agent_row acc x s) as Hstep.
    destruct (agent_row sim self x) as [[r|e] wx] eqn:Hrow.
    + assert (a ∈ l) as Hl.
      { apply elem_of_cons in Hin as [->|?]; [|done].
        unfold row_of in Hnone. by rewrite Hrow in Hnone. }
      destruct (IH (put_row x r acc) s) as (b & e & w & Hb & He & Hrun); [by eauto|].
      exists b, e, (wx ++ w). split_and!; [by right|done|].
      by rewrite (bind_Ok _ _ _ _ _ _ Hstep), Hrun.
    + exists x, e, wx. split_and!; [by left|by rewrite Hrow|].
      by rewrite (bind_Raise _ _ _ _ _ _ Hstep).
Qed.
End rows.

Lemma initial_dones_is_Some sim self k :
  is_Some (initial_dones sim self !! k) ↔
  k ∈ agent_ids self ∧ k ∉ agent_vehicle_ids (vehicle_index sim).
Proof.
  unfold initial_dones. split.
  - intros [d Hd]. apply lookup_set_to_map in Hd as (y & Hy & [= -> _]).
    + by apply elem_of_filter in Hy as [? ?].
    + by intros y y' _ _ ?.
  - intros [Hin Hnot]. eexists. apply lookup_set_to_map.
    + by intros y y' _ _ ?.
    + exists k. split; [|done]. by apply elem_of_filter.
Qed.

Lemma observe_rows sim self :
  (∀ a, a ∈ active_agents self → observable_agent sim self a) →
  ∃ res w,
    observe sim self = (Ok res, self, w) ∧
    (∀ k, observations res !! k =
            if decide (k ∈ active_agents self)
            then row_observation <$> row_of sim self k else None) ∧
    (∀ k, rewards res !! k =
            if decide (k ∈ active_agents self)
            then row_reward <$> row_of sim self k else None) ∧
    (∀ k, scores res !! k =
            if decide (k ∈ active_agents self)
            then row_score <$> row_of sim self k else None) ∧
    (∀ k, dones res !! k =
            if decide (k ∈ active_agents self)
            then row_done <$> row_of sim self k
            else initial_dones sim self !! k).
Proof.
  intros Hall.
  destruct (observe_rows_ok sim self (elements (active_agents self))
              {| observations := ∅; rewards := ∅; scores := ∅;
                 dones := initial_dones sim self |} self)
    as (res & w & Hrun & Ho & Hr & Hs & Hd).
  { intros a Ha%elem_of_elements. apply observable_agent_row. by apply Hall. }
  assert (∀ {V} (x y : option V) k,
            (if decide (k ∈ elements (active_agents self)) then x else y)
            = (if decide (k ∈ active_agents self) then x else y)) as Hel.
  { intros V x y k. destruct (decide (k ∈ active_agents self)).
    - rewrite decide_True; [done|]. by apply elem_of_elements.
    - rewrite decide_False; [done|]. by rewrite elem_of_elements. }
  exists res, w. split_and!.
  - unfold observe. run. by rewrite Hrun.
  - intros k. by rewrite Ho, Hel.
  - intros k. by rewrite Hr, Hel.
  - intros k. by rewrite Hs, Hel.
  - intros k. by rewrite Hd, Hel.
Qed.

(** [observe] gives every active agent an entry in each of the four dicts and
    no one else an entry in the first three; the dones also hold an entry for
    every other registered agent whose id is not among the index's
    [agent_vehicle_ids].  The manager is left as it was. *)
Theorem observe_keys (sim : Sim) (self : AgentManager) :
  (∀ a, a ∈ active_agents self → observable_agent sim self a) →
  ∃ res w,
    observe sim self = (Ok res, self, w) ∧
    dom (observations res) = active_agents self ∧
    dom (rewards res) = active_agents self ∧
    dom (scores res) = active_agents self ∧
    dom (dones res) =
      active_agents self
      ∪ filter (λ a, a ∉ agent_vehicle_ids (vehicle_index sim)) (agent_ids self).
Proof.
  intros Hall. destruct (observe_rows sim self Hall) as (res & w & Hrun & Ho & Hr & Hs & Hd).
  exists res, w. split; [done|].
  assert (∀ k, k ∈ active_agents self → is_Some (row_of sim self k)) as Hrow.
  { intros k Hk. apply observable_agent_row. by apply Hall. }
  assert (∀ {V} (m : gmap string V) (f : Row → V),
            (∀ k, m !! k = if decide (k ∈ active_agents self)
                           then f <$> row_of sim self k else None) →
            dom m = active_agents self) as Hdom.
  { intros V m f Hm. apply set_eq. intros k. rewrite elem_of_dom, Hm.
    destruct (decide (k ∈ active_agents self)) as [Hk|Hk].
    - destruct (Hrow k Hk) as [r ->]. split; [done|]. by eexists.
    - split; [by intros [? ?]|done]. }
  split_and!; [by eapply Hdom..|].
  apply set_eq. intros k. rewrite elem_of_dom, Hd, elem_of_union, elem_of_filter.
  destruct (decide (k ∈ active_agents self)) as [Hk|Hk].
  - destruct (Hrow k Hk) as [r ->]. split; [by left|]. by eexists.
  - rewrite initial_dones_is_Some. split; [intros [? ?]; by right|].
    intros [?|[? ?]]; done.
Qed.

Lemma observe_keys_witness :
  ∃ res w,
    observe town town_manager = (Ok res, town_manager, w) ∧
    dom (observations res) = active_agents town_manager.
Proof.
  destruct (observe_keys town town_manager town_observable)
    as (res & w & Hrun & Ho & _).
  exists res, w. split; [exact Hrun|exact Ho].
Defined.

(** [observe] raises when some active agent cannot be served: [KeyError] for
    an active agent without an interface, [AssertionError] for an active
    single-vehicle agent for which the index lists no vehicle or more than
    one.  Nothing is returned for the agents that could be served, and the
    manager is left as it was. *)
Theorem observe_raises_for_unservable_agent (sim : Sim) (self : AgentManager) :
  (∃ a, a ∈ active_agents self ∧ ¬ observable_agent sim self a) →
  ∃ e w,
    observe sim self = (Raise e, self, w) ∧
    ((∃ a, a ∈ active_agents self ∧ _agent_interfaces self !! a = None ∧
           e = KeyError a)
     ∨ (e = AssertionError ∧
        ∃ a agent_interface,
          a ∈ active_agents self ∧
          _agent_interfaces self !! a = Some agent_interface ∧
          action_space agent_interface ≠ MultiTargetPose ∧
          length (vehicle_indices_by_actor_id (vehicle_index sim) a) ≠ 1)).
Proof.
  intros (a & Ha & Hno).
  destruct (observe_rows_raise sim self (elements (active_agents self))
              {| observations := ∅; rewards := ∅; scores := ∅;
                 dones := initial_dones sim self |} self)
    as (b & e & w & Hb & He & Hrun).
  { exists a. split; [by apply elem_of_elements|].
    rewrite observable_agent_row in Hno. by apply eq_None_not_Some. }
  apply elem_of_elements in Hb.
  exists e, w. split.
  - unfold observe. run. by rewrite Hrun.
  - unfold agent_row in He.
    destruct (_agent_interfaces self !! b) as [agent_interface|] eqn:Hif.
    + right. destruct (decide (action_space agent_interface = MultiTargetPose));
        [done|].
      destruct (vehicle_indices_by_actor_id (vehicle_index sim) b)
        as [|[v sh] [|? ?]] eqn:Hidx; cbn in He; try done;
        injection He as <-; (split; [done|]);
        exists b, agent_interface; rewrite Hidx; by split_and!.
    + left. exists b. cbn in He. injection He as <-. by split_and!.
Qed.

Lemma observe_raises_for_unservable_agent_witness :
  ∃ e w, observe town ghost_manager = (Raise e, ghost_manager, w).
Proof.
  destruct (observe_raises_for_unservable_agent town ghost_manager)
    as (e & w & Hrun & _).
  - exists "ghost". split; [vm_compute; reflexivity|].
    intros (agent_interface & Hif & Hone).
    assert (agent_interface = single_vehicle) as ->.
    { vm_compute in Hif. by injection Hif as <-. }
    specialize (Hone ltac:(done)). vm_compute in Hone. discriminate Hone.
  - exists e, w. exact Hrun.
Defined.

Lemma row_of_single sim self a agent_interface v sh :
  _agent_interfaces self !! a = Some agent_interface →
  action_space agent_interface ≠ MultiTargetPose →
  vehicle_indices_by_actor_id (vehicle_index sim) a = [(v, sh)] →
  row_of sim self a = Some (single_row sim a v sh).
Proof.
  intros Hif Hs Hidx. unfold row_of, agent_row.
  by rewrite Hif, decide_False, Hidx.
Qed.

Lemma row_of_boid sim self a agent_interface :
  _agent_interfaces self !! a = Some agent_interface →
  action_space agent_interface = MultiTargetPose →
  row_of sim self a = Some (boid_row sim a).
Proof. intros Hif Hm. unfold row_of, agent_row. by rewrite Hif, decide_True. Qed.

Lemma existsb_values (m : gmap string bool) :
  existsb (λ d, d) (map_to_list m).*2 = true ↔ ∃ v, m !! v = Some true.
Proof.
  rewrite existsb_exists. split.
  - intros (d & Hin & ->). apply list_elem_of_In, list_elem_of_fmap in Hin
      as ([v d] & Hd & Hin). cbn in Hd. subst d.
    exists v. by apply elem_of_map_to_list.
  - intros [v Hv]. exists true. split; [|done].
    apply list_elem_of_In, list_elem_of_fmap. exists (v, true). split; [done|].
    by apply elem_of_map_to_list.
Qed.

Lemma dict_set_keys {V} k (v : V) items k' :
  k' ∈ (dict_set k v items).*1 ↔ k' = k ∨ k' ∈ items.*1.
Proof.
  induction items as [|[x y] l IH]; cbn.
  - rewrite list_elem_of_singleton, elem_of_nil. tauto.
  - destruct (decide (x = k)) as [->|Hne]; cbn; rewrite !elem_of_cons.
    + tauto.
    + rewrite IH. tauto.
Qed.

Lemma dict_set_NoDup {V} k (v : V) items :
  NoDup items.*1 → NoDup (dict_set k v items).*1.
Proof.
  induction items as [|[x y] l IH]; cbn; intros Hnd.
  - apply NoDup_singleton.
  - apply NoDup_cons in Hnd as [Hx Hnd].
    destruct (decide (x = k)) as [->|Hne]; cbn; apply NoDup_cons.
    + done.
    + split; [|by apply IH]. rewrite dict_set_keys. by intros [?|?].
Qed.

Lemma dict_items_keys {V} (items : list (string * V)) :
  NoDup (dict_items items).*1 ∧
  ∀ k, k ∈ (dict_items items).*1 ↔ k ∈ items.*1.
Proof.
  unfold dict_items.
  assert (∀ acc : list (string * V), NoDup acc.*1 →
            NoDup (foldl (λ d kv, dict_set kv.1 kv.2 d) acc items).*1 ∧
            ∀ k, k ∈ (foldl (λ d kv, dict_set kv.1 kv.2 d) acc items).*1
                 ↔ k ∈ acc.*1 ∨ k ∈ items.*1) as Hgen.
  { induction items as [|[x y] l IH]; intros acc Hnd; cbn.
    - split; [done|]. intros k. rewrite elem_of_nil. tauto.
    - destruct (IH (dict_set x y acc)) as [Hnd' Hin]; [by apply dict_set_NoDup|].
      split; [done|]. intros k. rewrite Hin, dict_set_keys, elem_of_cons. tauto. }
  destruct (Hgen []) as [Hnd Hin]; [apply NoDup_nil_2|].
  split; [done|]. intros k. rewrite Hin. cbn. rewrite elem_of_nil. tauto.
Qed.

Lemma dict_of_is_Some {V} (items : list (string * V)) k :
  is_Some (dict_of items !! k) ↔ k ∈ items.*1.
Proof.
  unfold dict_of.
  assert (∀ d : gmap string V,
            is_Some (foldl (λ d kv, <[kv.1 := kv.2]> d) d items !! k)
            ↔ is_Some (d !! k) ∨ k ∈ items.*1) as Hgen.
  { induction items as [|[x y] l IH]; intros d; cbn.
    - rewrite elem_of_nil. tauto.
    - rewrite IH, elem_of_cons. cbn. destruct (decide (k = x)) as [->|Hne].
      + rewrite lookup_insert_eq. split; [by right; left|]. intros _. left. by eexists.
      + rewrite lookup_insert_ne by done. split; intros [?|?]; try tauto.
        all: try (destruct H as [?|?]; [congruence|tauto]). }
  rewrite Hgen, lookup_empty. split; [intros [[? ?]|?]; done|by right].
Qed.

Lemma lookup_dict_of_keyed {V W} (g : string → W) (items : list (string * V)) k :
  NoDup items.*1 →
  dict_of ((λ item : string * V, (item.1, g item.1)) <$> items) !! k
  = if decide (k ∈ items.*1) then Some (g k) else None.
Proof.
  intros Hnd. change (dict_of ?l) with (assign_all l ∅).
  assert (((λ item : string * V, (item.1, g item.1)) <$> items).*1 = items.*1)
    as Hkeys.
  { rewrite <- list_fmap_compose. by apply list_fmap_ext. }
  rewrite lookup_assign_all by (by rewrite Hkeys).
  rewrite lookup_union, lookup_empty, (right_id_L None (∪)).
  destruct (decide (k ∈ items.*1)) as [Hin|Hnot].
  - apply elem_of_list_to_map; [by rewrite Hkeys|].
    apply list_elem_of_fmap in Hin as ([k' x] & -> & Hin).
    apply list_elem_of_fmap. by exists (k', x).
  - apply not_elem_of_list_to_map. by rewrite Hkeys.
Qed.

Lemma lookup_dict_of_keys {V W} (g : string → W) (items : list (string * V)) k :
  dict_of ((λ item : string * V, (item.1, g item.1)) <$> dict_items items) !! k
  = (λ _, g k) <$> dict_of items !! k.
Proof.
  destruct (dict_items_keys items) as [Hnd Hin].
  rewrite lookup_dict_of_keyed by done.
  destruct (decide (k ∈ (dict_items items).*1)) as [Hk|Hk].
  - apply Hin, dict_of_is_Some in Hk as [x ->]. done.
  - rewrite Hin, <- dict_of_is_Some in Hk.
    apply eq_None_not_Some in Hk. by rewrite Hk.
Qed.

(** For an active boid agent [observe] reports the per-vehicle observations of
    the batched sensor query, is done exactly when the query reports some
    vehicle done (the logical OR, so not done when it reports none), and
    rewards every vehicle that has a sensor state with that vehicle's
    incremental trip meter reading. *)
Theorem observe_boid_done_is_any (sim : Sim) (self : AgentManager) :
  (∀ a, a ∈ active_agents self → observable_agent sim self a) →
  ∃ res w,
    observe sim self = (Ok res, self, w) ∧
    ∀ a agent_interface,
      a ∈ active_agents self →
      _agent_interfaces self !! a = Some agent_interface →
      action_space agent_interface = MultiTargetPose →
      observations res !! a = Some (ObsPerVehicle (boid_sensed sim a).1) ∧
      (∃ d, dones res !! a = Some d ∧
            (d = true ↔ ∃ v, (boid_sensed sim a).2 !! v = Some true)) ∧
      (∃ per_vehicle, rewards res !! a = Some (MeterPerKey per_vehicle) ∧
         ∀ v, per_vehicle !! v =
                (λ _, _vehicle_reward v sim) <$> boid_sensor_states sim a !! v).
Proof.
  intros Hall. destruct (observe_rows sim self Hall) as (res & w & Hrun & Ho & Hr & _ & Hd).
  exists res, w. split; [done|]. intros a agent_interface Ha Hif Hm.
  pose proof (row_of_boid sim self a agent_interface Hif Hm) as Hrow.
  split_and!.
  - by rewrite Ho, decide_True, Hrow.
  - eexists. split; [by rewrite Hd, decide_True, Hrow|]. cbn. apply existsb_values.
  - eexists. split; [by rewrite Hr, decide_True, Hrow|]. cbn.
    intros v. apply (lookup_dict_of_keys (λ v, _vehicle_reward v sim)).
Qed.

Lemma observe_boid_done_is_any_witness :
  ∃ res w,
    observe town town_manager = (Ok res, town_manager, w) ∧
    observations res !! "boid-1" = Some (ObsPerVehicle (boid_sensed town "boid-1").1).
Proof.
  destruct (observe_boid_done_is_any town town_manager town_observable)
    as (res & w & Hrun & Hboid).
  exists res, w. split; [exact Hrun|]. clear Hrun.
  apply (Hboid "boid-1" boid); vm_compute; reflexivity.
Defined.

(** For an active single-vehicle agent [observe] reports the observation the
    Sensor Engine computed for its one vehicle, the vehicle's incremental trip
    meter reading as reward and its trip meter reading as score. *)
Theorem observe_single_vehicle_values (sim : Sim) (self : AgentManager) :
  (∀ a, a ∈ active_agents self → observable_agent sim self a) →
  ∃ res w,
    observe sim self = (Ok res, self, w) ∧
    ∀ a agent_interface v sh,
      a ∈ active_agents self →
      _agent_interfaces self !! a = Some agent_interface →
      action_space agent_interface ≠ MultiTargetPose →
      vehicle_indices_by_actor_id (vehicle_index sim) a = [(v, sh)] →
      observations res !! a = Some (ObsOne (sensed sim a v).1) ∧
      rewards res !! a =
        Some (MeterOne
                (Vehicle.trip_meter_increment (vehicle_by_id (vehicle_index sim) v))) ∧
      scores res !! a =
        Some (MeterOne (Vehicle.trip_meter (vehicle_by_id (vehicle_index sim) v))).
Proof.
  intros Hall. destruct (observe_rows sim self Hall) as (res & w & Hrun & Ho & Hr & Hs & _).
  exists res, w. split; [done|]. intros a agent_interface v sh Ha Hif Hsingle Hidx.
  pose proof (row_of_single sim self a agent_interface v sh Hif Hsingle Hidx) as Hrow.
  split_and!.
  - by rewrite Ho, decide_True, Hrow.
  - by rewrite Hr, decide_True, Hrow.
  - by rewrite Hs, decide_True, Hrow.
Qed.

Lemma observe_single_vehicle_values_witness :
  ∃ res w,
    observe town town_manager = (Ok res, town_manager, w) ∧
    rewards res !! "ego-1" = Some (MeterOne 1) ∧
    scores res !! "ego-1" = Some (MeterOne 5).
Proof.
  destruct (observe_single_vehicle_values town town_manager town_observable)
    as (res & w & Hrun & Hsingle).
  exists res, w. split; [exact Hrun|]. clear Hrun.
  destruct (Hsingle "ego-1" single_vehicle "car-1" "") as (_ & Hr & Hs).
  - vm_compute. reflexivity.
  - vm_compute. reflexivity.
  - discriminate.
  - reflexivity.
  - split; [exact Hr|exact Hs].
Defined.

Lemma _filter_for_active_ego_run {V} (dict_ : gmap string V) (self : AgentManager) :
  (∀ a, a ∈ active_ego self → is_Some (dict_ !! a)) →
  ∃ kept, _filter_for_active_ego dict_ self = (Ok kept, self, []) ∧
    ∀ k, kept !! k = if decide (k ∈ active_ego self) then dict_ !! k else None.
Proof.
  intros Hall.
  assert (∀ k, k ∈ active_ego self ↔
               k ∈ elements (_ego_agent_ids self) ∧ k ∉ pending_agent_ids self) as Hact.
  { intros k. unfold active_ego. rewrite elem_of_difference, elem_of_elements. done. }
  destruct (_filter_for_active_ego_loop self dict_ (elements (_ego_agent_ids self))
              ∅ self) as (kept & Hrun & Hlook).
  { intros a Ha Hp. apply Hall. by apply Hact. }
  exists kept. split.
  - unfold _filter_for_active_ego. run. by rewrite Hrun.
  - intros k. rewrite Hlook, lookup_empty.
    destruct (decide (k ∈ active_ego self)) as [Hk|Hk].
    + rewrite decide_True; [done|]. by apply Hact.
    + rewrite decide_False; [done|]. by rewrite <- Hact.
Qed.

(** What [observe] returns can always be cut down to the ego view:
    [filter_response_for_ego] does not raise on it, and it keeps, in each of
    the four dicts, exactly the entries of the ego agents that are not
    pending, unchanged. *)
Theorem observe_then_filter_response_for_ego (sim : Sim) (self : AgentManager) :
  (∀ a, a ∈ active_agents self → observable_agent sim self a) →
  ∃ res w ego_res,
    observe sim self = (Ok res, self, w) ∧
    filter_response_for_ego res self = (Ok ego_res, self, []) ∧
    (∀ k, observations ego_res !! k =
            if decide (k ∈ active_ego self) then observations res !! k else None) ∧
    (∀ k, rewards ego_res !! k =
            if decide (k ∈ active_ego self) then rewards res !! k else None) ∧
    (∀ k, scores ego_res !! k =
            if decide (k ∈ active_ego self) then scores res !! k else None) ∧
    (∀ k, dones ego_res !! k =
            if decide (k ∈ active_ego self) then dones res !! k else None) ∧
    (∀ k, k ∈ active_ego self →
          is_Some (observations ego_res !! k) ∧ is_Some (dones ego_res !! k)).
Proof.
  intros Hall. destruct (observe_rows sim self Hall) as (res & w & Hrun & Ho & Hr & Hs & Hd).
  assert (∀ k, k ∈ active_ego self → k ∈ active_agents self) as Hsub.
  { intros k. unfold active_ego, active_agents, agent_ids. set_solver. }
  assert (∀ k, k ∈ active_agents self → is_Some (row_of sim self k)) as Hrow.
  { intros k Hk. apply observable_agent_row. by apply Hall. }
  assert (∀ {V} (m : gmap string V) (f : Row → V),
            (∀ k, m !! k = if decide (k ∈ active_agents self)
                           then f <$> row_of sim self k else None) →
            ∀ a, a ∈ active_ego self → is_Some (m !! a)) as Hhas.
  { intros V m f Hm a Ha. rewrite Hm, decide_True by (by apply Hsub).
    destruct (Hrow a) as [r ->]; [by apply Hsub|]. by eexists. }
  destruct (_filter_for_active_ego_run (observations res) self) as (o & Hfo & Hlo);
    [by eapply Hhas|].
  destruct (_filter_for_active_ego_run (rewards res) self) as (r & Hfr & Hlr);
    [by eapply Hhas|].
  destruct (_filter_for_active_ego_run (scores res) self) as (sc & Hfs & Hls);
    [by eapply Hhas|].
  destruct (_filter_for_active_ego_run (dones res) self) as (d & Hfd & Hld).
  { intros a Ha. rewrite Hd, decide_True by (by apply Hsub).
    destruct (Hrow a) as [x ->]; [by apply Hsub|]. by eexists. }
  exists res, w, {| observations := o; rewards := r; scores := sc; dones := d |}.
  split; [done|]. split.
  - unfold filter_response_for_ego.
    rewrite (bind_Ok _ _ _ _ _ _ Hfo), (bind_Ok _ _ _ _ _ _ Hfr),
      (bind_Ok _ _ _ _ _ _ Hfs), (bind_Ok _ _ _ _ _ _ Hfd). done.
  - cbn. split_and!; [done..|]. intros k Hk. split.
    + rewrite Hlo, decide_True by done. by eapply Hhas.
    + rewrite Hld, decide_True, Hd, decide_True by (by auto).
      destruct (Hrow k) as [x ->]; [by apply Hsub|]. by eexists.
Qed.

Lemma observe_then_filter_response_for_ego_witness :
  ∃ res w ego_res,
    observe town town_manager = (Ok res, town_manager, w) ∧
    filter_response_for_ego res town_manager = (Ok ego_res, town_manager, []) ∧
    is_Some (dones ego_res !! "ego-1").
Proof.
  destruct (observe_then_filter_response_for_ego town town_manager town_observable)
    as (res & w & ego_res & Hrun & Hfilter & _ & _ & _ & _ & Hsome).
  exists res, w, ego_res. split; [exact Hrun|]. split; [exact Hfilter|].
  clear Hrun Hfilter. apply Hsome. vm_compute. reflexivity.
Defined.

(** ** Bystander sensors, then observing through them *)

Lemma agent_id_for_vehicle_inj v v' : "Agent-" +:+ v = "Agent-" +:+ v' → v = v'.
Proof. intros H. by simplify_eq/=. Qed.

(** After [attach_sensors_to_vehicles] for a list of vehicle ids, [observe_from]
    for the same list does not raise: every id is bound.  Its dicts are keyed
    by the agent ids bound to the vehicles, which for the ids that were not
    bound before are the ids ["Agent-" + vehicle id], different for different
    vehicles. *)
Theorem attach_sensors_then_observe_from (sim : Sim)
    (agent_interface : AgentInterface) (vehicle_ids : list string)
    (self : AgentManager) :
  ∃ self' w res,
    attach_sensors_to_vehicles sim agent_interface vehicle_ids self = (Ok tt, self', w) ∧
    observe_from sim vehicle_ids self' = (Ok res, self', []) ∧
    dom (observations res) = sensor_agents self' vehicle_ids ∧
    dom (dones res) = sensor_agents self' vehicle_ids ∧
    (∀ v, v ∈ vehicle_ids → _vehicle_with_sensors self !! v = None →
          "Agent-" +:+ v ∈ dom (dones res)) ∧
    (∀ v v', "Agent-" +:+ v = "Agent-" +:+ v' → v = v').
Proof.
  destruct (attach_sensors_loop sim agent_interface vehicle_ids self)
    as (self' & w & Hrun & Hvws & _).
  assert (∀ v, v ∈ vehicle_ids → is_Some (_vehicle_with_sensors self' !! v)) as Hbound.
  { intros v Hv. rewrite Hvws. destruct (_ !! v); [done|]. by rewrite decide_True. }
  destruct (observe_from_loop_bound sim self' vehicle_ids
              {| observations := ∅; rewards := ∅; scores := ∅; dones := ∅ |}
              self' Hbound) as (res & Hobs & Ho & _ & _ & Hd & _).
  cbn in Ho, Hd. rewrite dom_empty_L, union_empty_r_L in Ho.
  rewrite dom_empty_L, union_empty_r_L in Hd.
  exists self', w, res. split_and!; [done| |done|done| |].
  - unfold observe_from. run. by rewrite Hobs.
  - intros v Hv Hnone. rewrite Hd. unfold sensor_agents.
    apply elem_of_list_to_set, list_elem_of_omap. exists v. split; [done|].
    by rewrite Hvws, Hnone, decide_True.
  - apply agent_id_for_vehicle_inj.
Qed.

(** ** A social agent's life *)

(** A social agent that is started and then removed: while it is registered
    [name_for_agent] gives the name of its data model; removing it calls
    [terminate()] on its handle and on no other, and afterwards it is no
    social agent, its handle entry, data model and interface are gone, and
    [name_for_agent] gives the empty string.  Every other social agent is
    as it was before the start. *)
Theorem start_then_teardown_social_agent (remote_agent : RemoteAgent)
    (agent_id : string) (interface : AgentInterface) (agent_model : AgentModel)
    (self : AgentManager) :
  social_registered self →
  terminate_raises remote_agent = false →
  ∃ s1 s2 w,
    start_social_agent remote_agent agent_id interface agent_model self
    = (Ok tt, s1, [Start (handle remote_agent)]) ∧
    name_for_agent s1 agent_id = name agent_model ∧
    agent_id ∈ social_agent_ids s1 ∧
    teardown_social_agents (Some {[agent_id]}) s1 = (Ok {[agent_id]}, s2, w) ∧
    terminated w = [handle remote_agent] ∧
    name_for_agent s2 agent_id = "" ∧
    _social_agent_ids s2 = _social_agent_ids self ∖ {[agent_id]} ∧
    _remote_social_agents s2 !! agent_id = None ∧
    _agent_interfaces s2 !! agent_id = None ∧
    (∀ b, b ≠ agent_id →
          _remote_social_agents s2 !! b = _remote_social_agents self !! b ∧
          _agent_data_models s2 !! b = _agent_data_models self !! b ∧
          _agent_interfaces s2 !! b = _agent_interfaces self !! b) ∧
    social_registered s2.
Proof.
  intros Hreg Hok.
  destruct (start_social_agent_registered remote_agent agent_id interface agent_model
              self Hreg) as (s1 & Hstart & Hreg1 & Hsoc1 & Hrem1).
  assert (s1 = set_agent_data_models
                 (<[agent_id := agent_model]> (_agent_data_models self))
                 (set_social_agent_ids ({[agent_id]} ∪ _social_agent_ids self)
                    (set_agent_interfaces
                       (<[agent_id := interface]> (_agent_interfaces self))
                       (set_remote_social_agents
                          (<[agent_id := remote_agent]> (_remote_social_agents self))
                          self)))) as Hs1.
  { unfold start_social_agent in Hstart. revert Hstart. run. by intros [= <-]. }
  assert (removal_set (_social_agent_ids s1) (Some {[agent_id]}) = {[agent_id]}) as Hids.
  { unfold removal_set. rewrite Hsoc1. clear. set_solver. }
  pose proof (teardown_social_agents_run (Some {[agent_id]}) s1 Hreg1) as Hdown.
  cbv zeta in Hdown. rewrite Hids in Hdown.
  rewrite elements_singleton in Hdown.
  rewrite bool_decide_eq_true_2 in Hdown by (clear; set_solver).
  specialize (Hdown ltac:(intros a r ->%elem_of_singleton Hr; congruence)).
  unfold handles_of in Hdown. cbn [omap list_omap] in Hdown.
  rewrite Hrem1 in Hdown. cbn in Hdown.
  eexists s1, _, _. split; [exact Hstart|].
  split. { rewrite Hs1. unfold name_for_agent. cbn. by rewrite lookup_insert_eq. }
  split. { unfold social_agent_ids. rewrite Hsoc1. clear. set_solver. }
  split; [exact Hdown|]. clear Hdown Hstart.
  rewrite Hs1. unfold drop_all, name_for_agent, social_registered. cbn.
  rewrite !lookup_delete_eq.
  destruct Hreg as [Hr Hd].
  split_and!; try done.
  - clear. set_solver.
  - intros b Hb. rewrite !lookup_delete_ne by done. by rewrite !lookup_insert_ne.
  - rewrite dom_delete_L, dom_insert_L. clear -Hr. set_solver.
  - rewrite dom_delete_L, dom_insert_L. clear -Hd. set_solver.
Qed.

Lemma start_then_teardown_social_agent_witness :
  ∃ s1 s2 w,
    start_social_agent {| handle := 9; recv_action := ANone; terminate_raises := false |}
      "social-9" single_vehicle {| name := "nine"; initial_speed := 0 |} two_social
    = (Ok tt, s1, [Start 9]) ∧
    teardown_social_agents (Some {["social-9"]}) s1 = (Ok {["social-9"]}, s2, w) ∧
    terminated w = [9].
Proof.
  destruct (start_then_teardown_social_agent
              {| handle := 9; recv_action := ANone; terminate_raises := false |}
              "social-9" single_vehicle {| name := "nine"; initial_speed := 0 |}
              two_social)
    as (s1 & s2 & w & Hstart & _ & _ & Hdown & Hterm & _).
  - split; by vm_compute.
  - reflexivity.
  - exists s1, s2, w. split; [exact Hstart|]. split; [exact Hdown|exact Hterm].
Defined.

(** ** When collecting actions fails *)

Section filter_raises.
Variables (sim : Sim) (self : AgentManager).

Lemma filter_loop_raises items :
  ∀ acc s,
    (∃ a act, (a, act) ∈ items ∧ ¬ servable self a act) →
    ∃ e,
      for_acc items (filter_boid_actions sim self) acc s = (Raise e, s, []) ∧
      ((∃ a act, (a, act) ∈ items ∧ _agent_interfaces self !! a = None ∧
                 e = KeyError a)
       ∨ (e = AttributeError ∧
          ∃ a act agent_interface,
            (a, act) ∈ items ∧
            _agent_interfaces self !! a = Some agent_interface ∧
            action_space agent_interface = MultiTargetPose ∧
            ∀ d, act ≠ ADict d)).
Proof.
  induction items as [|[x actx] l IH]; intros acc s (a & act & Hin & Hno).
  - by apply elem_of_nil in Hin.
  - cbn [for_acc].
    assert (servable self x actx → (a, act) ∈ l) as Htail.
    { intros Hserv. apply elem_of_cons in Hin as [[= -> ->]|?]; done. }
    unfold filter_boid_actions at 1. run.
    destruct (_agent_interfaces self !! x) as [agent_interface|] eqn:Hif; run.
    2: { eexists. split; [done|]. left. exists x, actx. split_and!; [by left|done..]. }
    destruct (decide (action_space agent_interface = MultiTargetPose)) as [Hm|Hs]; run.
    + destruct actx as [|p|d]; run.
      * eexists. split; [done|]. right. split; [done|].
        exists x, ANone, agent_interface. split_and!; [by left|done..].
      * eexists. split; [done|]. right. split; [done|].
        exists x, (AScalar p), agent_interface. split_and!; [by left|done..].
      * destruct (IH (<[x := ADict (filter (λ va : string * Payload,
                           va.1 ∈ vehicle_ids_by_actor_id (vehicle_index sim) x false)
                           d)]> acc) s) as (e & Hrun & Hwhy).
        { exists a, act. split; [|done]. apply Htail.
          exists agent_interface. split; [done|]. intros _. by exists d. }
        exists e. rewrite Hrun. split; [done|].
        destruct Hwhy as [(b & actb & ? & ? & ?)|(? & b & actb & i & ? & ? & ? & ?)].
        -- left. exists b, actb. split_and!; [by right|done..].
        -- right. split; [done|]. exists b, actb, i. split_and!; [by right|done..].
    + destruct (IH acc s) as (e & Hrun & Hwhy).
      { exists a, act. split; [|done]. apply Htail.
        exists agent_interface. split; [done|]. by intros ?. }
      exists e. rewrite Hrun. split; [done|].
      destruct Hwhy as [(b & actb & ? & ? & ?)|(? & b & actb & i & ? & ? & ? & ?)].
      * left. exists b, actb. split_and!; [by right|done..].
      * right. split; [done|]. exists b, actb, i. split_and!; [by right|done..].
Qed.

Lemma fetch_agent_actions_run_raise ego_agent_actions e :
  _filter_social_agent_actions_for_controlled_vehicles sim (received self) self
  = (Raise e, self, []) →
  ∃ w, fetch_agent_actions sim ego_agent_actions self = (Raise e, self, w).
Proof.
  intros Hfilter. unfold fetch_agent_actions.
  unfold received in *. unfold bind, get, emit, ret.
  cbn -[_filter_social_agent_actions_for_controlled_vehicles].
  destruct (bool_decide _);
    cbn -[_filter_social_agent_actions_for_controlled_vehicles];
    rewrite Hfilter; cbn; by eexists.
Qed.
End filter_raises.

(** [fetch_agent_actions] raises when a social agent that controls a vehicle
    cannot be served: [KeyError] when it has no interface, [AttributeError]
    when it is a boid agent whose answer is no per-vehicle dict, a timed-out
    [None] included.  No action map is returned then, not even the ego
    actions; the manager is left as it was. *)
Theorem fetch_agent_actions_raises (sim : Sim) (self : AgentManager)
    (ego_agent_actions : gmap string Action) :
  (∃ a act, received self !! a = Some act ∧ a ∈ controlling_agent_ids sim ∧
            ¬ servable self a act) →
  ∃ e w,
    fetch_agent_actions sim ego_agent_actions self = (Raise e, self, w) ∧
    ((∃ a, a ∈ controlling_agent_ids sim ∧
           is_Some (_remote_social_agents self !! a) ∧
           _agent_interfaces self !! a = None ∧ e = KeyError a)
     ∨ (e = AttributeError ∧
        ∃ a r agent_interface,
          a ∈ controlling_agent_ids sim ∧
          _remote_social_agents self !! a = Some r ∧
          _agent_interfaces self !! a = Some agent_interface ∧
          action_space agent_interface = MultiTargetPose ∧
          ∀ d, recv_action r ≠ ADict d)).
Proof.
  intros (a & act & Ha & Hc & Hno).
  set (kept := filter (λ item : string * Action, item.1 ∈ controlling_agent_ids sim)
                      (received self)).
  destruct (filter_loop_raises sim self (map_to_list kept) kept self)
    as (e & Hloop & Hwhy).
  { exists a, act. split; [|done]. apply elem_of_map_to_list.
    by apply map_lookup_filter_Some. }
  assert (∀ b actb, (b, actb) ∈ map_to_list kept →
            b ∈ controlling_agent_ids sim ∧
            ∃ r, _remote_social_agents self !! b = Some r ∧ recv_action r = actb)
    as Hitem.
  { intros b actb Hb%elem_of_map_to_list.
    apply map_lookup_filter_Some in Hb as [Hb Hcb]. split; [done|].
    unfold received in Hb. apply lookup_fmap_Some in Hb as (r & <- & Hr). by exists r. }
  destruct (fetch_agent_actions_run_raise sim self ego_agent_actions e) as [w Hrun].
  { unfold _filter_social_agent_actions_for_controlled_vehicles. run.
    fold kept. by rewrite Hloop. }
  exists e, w. split; [done|].
  destruct Hwhy as [(b & actb & Hb & Hif & ->)|(-> & b & actb & i & Hb & Hif & Hm & Hnd)].
  - left. destruct (Hitem b actb Hb) as (? & r & Hr & _).
    exists b. split_and!; [done|by eexists|done..].
  - right. split; [done|]. destruct (Hitem b actb Hb) as (? & r & Hr & <-).
    exists b, r, i. by split_and!.
Qed.

Lemma fetch_agent_actions_raises_witness :
  ∃ e w,
    fetch_agent_actions town {["ego-1" := AScalar 4]} town_manager_boid_silent
    = (Raise e, town_manager_boid_silent, w).
Proof.
  destruct (fetch_agent_actions_raises town town_manager_boid_silent
              {["ego-1" := AScalar 4]}) as (e & w & Hrun & _).
  - exists "boid-1", ANone. split; [vm_compute; reflexivity|].
    split; [vm_compute; reflexivity|].
    intros (agent_interface & Hif & Hdict).
    assert (agent_interface = boid) as ->.
    { vm_compute in Hif. by injection Hif as <-. }
    destruct Hdict as [d Hd]; [reflexivity|discriminate Hd].
  - exists e, w. exact Hrun.
Defined.

(** With no social agent registered, [fetch_agent_actions] returns the ego
    actions as they are and logs nothing. *)
Theorem fetch_agent_actions_without_social_agents (sim : Sim) (self : AgentManager)
    (ego_agent_actions : gmap string Action) :
  _remote_social_agents self = ∅ →
  fetch_agent_actions sim ego_agent_actions self = (Ok ego_agent_actions, self, []).
Proof.
  intros Hnone.
  assert (received self = ∅) as Hrecv.
  { unfold received. by rewrite Hnone, fmap_empty. }
  rewrite (fetch_agent_actions_run sim self ego_agent_actions ∅).
  - rewrite Hrecv, map_to_list_empty. cbn. by rewrite (left_id_L ∅ (∪)).
  - unfold _filter_social_agent_actions_for_controlled_vehicles. run.
    fold (received self). rewrite Hrecv.
    by rewrite map_filter_empty, map_to_list_empty.
Qed.

Lemma fetch_agent_actions_without_social_agents_witness :
  fetch_agent_actions town {["ego-1" := AScalar 4]} one_ego_not_pending
  = (Ok {["ego-1" := AScalar 4]}, one_ego_not_pending, []).
Proof.
  apply (fetch_agent_actions_without_social_agents town one_ego_not_pending).
  reflexivity.
Defined.

Lemma start_social_agent_registered_witness :
  ∃ s', start_social_agent stuck_handle "social-7" boid
          {| name := "seven"; initial_speed := 3 |} two_social
        = (Ok tt, s', [Start 7]) ∧
    social_registered s' ∧
    _remote_social_agents s' !! "social-7" = Some stuck_handle.
Proof.
  destruct (start_social_agent_registered stuck_handle "social-7" boid
              {| name := "seven"; initial_speed := 3 |} two_social)
    as (s' & Hrun & Hreg & _ & Hrem).
  - split; by vm_compute.
  - exists s'. split; [exact Hrun|]. split; [exact Hreg|exact Hrem].
Defined.

Lemma init_ego_agents_registers_pending_witness :
  ∃ self',
    init_ego_agents (__init__ {["ego-1" := single_vehicle]}) = (Ok tt, self', []) ∧
    active_agents self' = ∅ ∧
    _pending_agent_ids self' = {["ego-1"]}.
Proof.
  destruct (init_ego_agents_registers_pending (__init__ {["ego-1" := single_vehicle]}))
    as (self' & Hrun & _ & Hpend & _ & _ & _ & Hnone).
  exists self'. split; [exact Hrun|]. split; [by apply Hnone|].
  rewrite Hpend. clear. cbn. rewrite dom_singleton_L. set_solver.
Defined.

(** ** Removing a social agent that has no handle *)

Lemma terminate_and_forget_no_handle id_ s :
  _remote_social_agents s !! id_ = None →
  terminate_and_forget id_ s = (Raise (KeyError id_), s, []).
Proof. intros Hr. unfold terminate_and_forget. run. by rewrite Hr. Qed.

Lemma terminate_loop_no_handle ids a :
  ∀ s, a ∈ ids → _remote_social_agents s !! a = None →
    ∃ e s' w, for_ ids terminate_and_forget s = (Raise e, s', w) ∧
      _social_agent_ids s' = _social_agent_ids s ∧
      _agent_interfaces s' = _agent_interfaces s ∧
      _remote_social_agents s' !! a = None.
Proof.
  induction ids as [|x l IH]; intros s Hin Hr; [by apply elem_of_nil in Hin|].
  cbn [for_]. destruct (decide (x = a)) as [->|Hne].
  - rewrite (bind_Raise _ _ _ _ _ _ (terminate_and_forget_no_handle a s Hr)).
    by eexists _, _, _.
  - assert (a ∈ l) as Hl by (apply elem_of_cons in Hin as [?|?]; [congruence|done]).
    destruct (terminate_and_forget x s) as [[res s1] w1] eqn:Hstep.
    destruct (terminate_and_forget_frame x s res s1 w1 Hstep) as (Hsoc & Hif & Hoth).
    destruct (Hoth a) as [Hra _]; [done|].
    destruct res as [[]|e].
    + rewrite (bind_Ok _ _ _ _ _ _ Hstep).
      destruct (IH s1 Hl) as (e & s' & w & Hrun & Hsoc' & Hif' & Hr'); [congruence|].
      rewrite Hrun. exists e, s', (w1 ++ w). split_and!; [done|congruence..].
    + rewrite (bind_Raise _ _ _ _ _ _ Hstep).
      exists e, s1, w1. split_and!; [done|congruence..].
Qed.

(** [teardown_social_agents] raises when a social id that is to be removed has
    no entry in the handle dict: the id then stays in the social id set,
    without handle and without interface. *)
Theorem teardown_social_agents_without_handle (filter_ids : option (gset string))
    (self : AgentManager) (a : string) :
  a ∈ removal_set (_social_agent_ids self) filter_ids →
  _remote_social_agents self !! a = None →
  ∃ e self' w,
    teardown_social_agents filter_ids self = (Raise e, self', w) ∧
    a ∈ _social_agent_ids self' ∧
    _remote_social_agents self' !! a = None ∧
    _agent_interfaces self' !! a = None.
Proof.
  intros Hin Hr.
  assert (a ∈ _social_agent_ids self) as Hsoc.
  { unfold removal_set in Hin. destruct filter_ids; set_solver. }
  set (ids_ := removal_set (_social_agent_ids self) filter_ids) in *.
  set (s1 := set_agent_interfaces
               (drop_all (elements ids_) (_agent_interfaces self)) self).
  destruct (terminate_loop_no_handle (elements ids_) a s1)
    as (e & s' & w & Hloop & Hsoc' & Hif' & Hr'); [by apply elem_of_elements|done|].
  exists e, s'. eexists. split.
  - unfold teardown_social_agents. run.
    rewrite _teardown_agents_by_ids_run. cbv zeta. fold ids_. fold s1. cbn.
    rewrite Hloop. reflexivity.
  - split_and!; [by rewrite Hsoc'|done|].
    rewrite Hif'. subst s1. cbn. rewrite lookup_drop_all, decide_True; [done|].
    by apply elem_of_elements.
Qed.

Lemma teardown_social_agents_without_handle_witness :
  ∃ e self' w,
    teardown_social_agents None orphan_social = (Raise e, self', w) ∧
    "social-1" ∈ _social_agent_ids self'.
Proof.
  destruct (teardown_social_agents_without_handle None orphan_social "social-1")
    as (e & self' & w & Hrun & Hsoc & _).
  - vm_compute. reflexivity.
  - vm_compute. reflexivity.
  - exists e, self', w. split; [exact Hrun|exact Hsoc].
Defined.
